(** * RecruitIQ: the interview store and its aggregates

    A shallow embedding of [src/data.py] (the SQLite-backed store) and of
    the score handling of [src/tab_interview.py] (the evaluation tab, the
    scoring form and the quick-analytics tab).

    Modelling conventions.
    - A table is the list of its rows in rowid order, which is the order a
      full scan of the table returns them in.
    - A SQLite [REAL] / Python [float] is modelled as an exact rational
      ([Q]): averages are the exact quotients, rounding is not modelled.
    - [uuid.uuid4()] is an explicit argument of the two operations that
      draw an identifier.
    - A Python exception is a [Raise] result: [sqlite3.IntegrityError]
      from a statement, [ZeroDivisionError] from a division.
    - A Python [dict] is an association list in insertion order; assigning
      to an existing key keeps the key's position. *)

From Stdlib Require Import String List Bool ZArith QArith Lia.
From Stdlib Require Import Permutation Sorted.
From Stdlib Require OrderedTypeEx.
Import ListNotations.

Local Open Scope string_scope.
Local Open Scope list_scope.

(** ** Python values and exceptions *)

Module Py.

Inductive exn : Type :=
| IntegrityError (msg : string)
| ZeroDivisionError.

Inductive result (A : Type) : Type :=
| Ok (a : A)
| Raise (e : exn).

Arguments Ok {A} a.
Arguments Raise {A} e.

Definition bind {A B : Type} (r : result A) (k : A -> result B) : result B :=
  match r with
  | Ok a => k a
  | Raise e => Raise e
  end.

(** [x or None] on a string: the empty string is falsy. *)
Definition or_None (s : string) : option string :=
  if String.eqb s "" then None else Some s.

(** [d[k] = v] *)
Fixpoint dict_set {V : Type} (k : string) (v : V) (d : list (string * V))
  : list (string * V) :=
  match d with
  | [] => [(k, v)]
  | (k', v') :: d' =>
      if String.eqb k' k then (k', v) :: d' else (k', v') :: dict_set k v d'
  end.

(** [d.get(k)] *)
Fixpoint dict_get {V : Type} (k : string) (d : list (string * V)) : option V :=
  match d with
  | [] => None
  | (k', v') :: d' => if String.eqb k' k then Some v' else dict_get k d'
  end.

(** [{key(x): val(x) for x in xs}] *)
Definition dict_comp {X V : Type} (key : X -> string) (val : X -> V)
  (xs : list X) : list (string * V) :=
  fold_left (fun d x => dict_set (key x) (val x) d) xs [].

Definition values {V : Type} (d : list (string * V)) : list V := map snd d.
Definition keys {V : Type} (d : list (string * V)) : list string := map fst d.

(** [sum(xs)]: left to right, starting from 0. *)
Definition sum (xs : list Q) : Q := fold_left Qplus xs 0%Q.

(** [len(xs)] as the number a division takes it for. *)
Definition len {X : Type} (xs : list X) : Q := inject_Z (Z.of_nat (length xs)).

(** [a / b] *)
Definition div (a b : Q) : result Q :=
  if Qeq_bool b 0 then Raise ZeroDivisionError else Ok (a / b)%Q.

End Py.

Notation "x <- c1 ;; c2" := (Py.bind c1 (fun x => c2))
  (at level 61, c1 at next level, right associativity).

(** ** SQLite: the three tables and the statements the store issues *)

Module Sqlite.
Import Py.

(** [sessions(id TEXT PRIMARY KEY, name TEXT NOT NULL, interviewer TEXT,
    date TEXT, notes TEXT)] *)
Record session_row : Type := {
  sess_id : string;
  sess_name : string;
  sess_interviewer : option string;
  sess_date : option string;
  sess_notes : option string
}.

(** [candidates(id TEXT PRIMARY KEY, session_id TEXT, name TEXT, email TEXT,
    phone TEXT, position TEXT, experience_years INTEGER, notes TEXT,
    FOREIGN KEY(session_id) REFERENCES sessions(id) ON DELETE CASCADE)] *)
Record candidate_row : Type := {
  cand_id : string;
  cand_session_id : string;
  cand_name : option string;
  cand_email : option string;
  cand_phone : option string;
  cand_position : option string;
  cand_experience_years : option Z;
  cand_notes : option string
}.

(** [scores(id INTEGER PRIMARY KEY AUTOINCREMENT, candidate_id TEXT,
    metric TEXT NOT NULL, value REAL NOT NULL,
    FOREIGN KEY(candidate_id) REFERENCES candidates(id) ON DELETE CASCADE)] *)
Record score_row : Type := {
  score_id : Z;
  score_candidate_id : string;
  score_metric : string;
  score_value : Q
}.

(** The database file: the three tables and the AUTOINCREMENT counter of
    [scores] (the largest id ever handed out). *)
Record database : Type := {
  sessions : list session_row;
  candidates : list candidate_row;
  scores : list score_row;
  scores_seq : Z
}.

Definition empty_db : database :=
  {| sessions := []; candidates := []; scores := []; scores_seq := 0 |}.

(** A connection. SQLite enforces foreign keys only on a connection that
    has run [PRAGMA foreign_keys = ON]; a fresh connection has it off. *)
Record connection : Type := { foreign_keys : bool }.

Definition connect : connection := {| foreign_keys := false |}.

Definition mem (x : string) (l : list string) : bool := existsb (String.eqb x) l.

(** [INSERT INTO sessions (id, name, interviewer, date, notes) VALUES (?, ?, ?, ?, ?)] *)
Definition insert_session (conn : connection) (id : string) (name : option string)
  (interviewer date notes : option string) (db : database) : result database :=
  match name with
  | None => Raise (IntegrityError "NOT NULL constraint failed: sessions.name")
  | Some n =>
      if mem id (map sess_id (sessions db))
      then Raise (IntegrityError "UNIQUE constraint failed: sessions.id")
      else Ok {| sessions := sessions db ++
                   [{| sess_id := id; sess_name := n; sess_interviewer := interviewer;
                       sess_date := date; sess_notes := notes |}];
                 candidates := candidates db;
                 scores := scores db;
                 scores_seq := scores_seq db |}
  end.

(** [INSERT INTO candidates (id, session_id, name, email, phone, position,
    experience_years, notes) VALUES (?, ?, ?, ?, ?, ?, ?, ?)] *)
Definition insert_candidate (conn : connection) (id session_id : string)
  (name email phone position : option string) (experience_years : option Z)
  (notes : option string) (db : database) : result database :=
  if mem id (map cand_id (candidates db))
  then Raise (IntegrityError "UNIQUE constraint failed: candidates.id")
  else if foreign_keys conn && negb (mem session_id (map sess_id (sessions db)))
  then Raise (IntegrityError "FOREIGN KEY constraint failed")
  else Ok {| sessions := sessions db;
             candidates := candidates db ++
               [{| cand_id := id; cand_session_id := session_id; cand_name := name;
                   cand_email := email; cand_phone := phone; cand_position := position;
                   cand_experience_years := experience_years; cand_notes := notes |}];
             scores := scores db;
             scores_seq := scores_seq db |}.

(** [INSERT INTO scores (candidate_id, metric, value) VALUES (?, ?, ?)] *)
Definition insert_score (conn : connection) (candidate_id metric : string)
  (value : Q) (db : database) : result database :=
  if foreign_keys conn && negb (mem candidate_id (map cand_id (candidates db)))
  then Raise (IntegrityError "FOREIGN KEY constraint failed")
  else Ok {| sessions := sessions db;
             candidates := candidates db;
             scores := scores db ++
               [{| score_id := (scores_seq db + 1)%Z; score_candidate_id := candidate_id;
                   score_metric := metric; score_value := value |}];
             scores_seq := (scores_seq db + 1)%Z |}.

(** [DELETE FROM scores WHERE candidate_id = ?] *)
Definition delete_scores (conn : connection) (candidate_id : string)
  (db : database) : database :=
  {| sessions := sessions db;
     candidates := candidates db;
     scores := filter (fun s => negb (String.eqb (score_candidate_id s) candidate_id))
                 (scores db);
     scores_seq := scores_seq db |}.

(** [UPDATE candidates SET notes = ? WHERE id = ?] *)
Definition update_notes (conn : connection) (notes : option string)
  (candidate_id : string) (db : database) : database :=
  {| sessions := sessions db;
     candidates :=
       map (fun c =>
              if String.eqb (cand_id c) candidate_id
              then {| cand_id := cand_id c; cand_session_id := cand_session_id c;
                      cand_name := cand_name c; cand_email := cand_email c;
                      cand_phone := cand_phone c; cand_position := cand_position c;
                      cand_experience_years := cand_experience_years c;
                      cand_notes := notes |}
              else c)
           (candidates db);
     scores := scores db;
     scores_seq := scores_seq db |}.

(** [ORDER BY]: [before x y] says that [x] may come before [y]. Rows that
    tie are kept in scan order here; SQL leaves their order open. *)
Section OrderBy.
Context {A : Type} (before : A -> A -> bool).

Fixpoint insert_row (x : A) (l : list A) : list A :=
  match l with
  | [] => [x]
  | y :: l' => if before x y then x :: l else y :: insert_row x l'
  end.

Definition order_by (l : list A) : list A := fold_right insert_row [] l.
End OrderBy.

(** The order of a nullable TEXT column: NULL is smaller than every text,
    texts compare byte by byte. *)
Definition text_leb (a b : option string) : bool :=
  match a, b with
  | None, _ => true
  | Some _, None => false
  | Some x, Some y => String.leb x y
  end.

(** [candidates c LEFT JOIN scores s ON c.id = s.candidate_id]: every
    candidate with each of its score rows, or once with NULLs when it has
    none. *)
Definition join_candidate (c : candidate_row) (ss : list score_row)
  : list (candidate_row * option score_row) :=
  match filter (fun s => String.eqb (cand_id c) (score_candidate_id s)) ss with
  | [] => [(c, None)]
  | matched => map (fun s => (c, Some s)) matched
  end.

Definition left_join (cs : list candidate_row) (ss : list score_row)
  : list (candidate_row * option score_row) :=
  flat_map (fun c => join_candidate c ss) cs.

(** [GROUP BY]: the distinct keys in order of first occurrence, and for
    each the rows that carry it. SQL leaves the order of the groups open. *)
Section GroupBy.
Context {R K : Type} (key : R -> K) (key_eqb : K -> K -> bool).

Fixpoint distinct (ks : list K) : list K :=
  match ks with
  | [] => []
  | k :: ks' => k :: filter (fun k' => negb (key_eqb k' k)) (distinct ks')
  end.

Definition group_by (rows : list R) : list (list R) :=
  map (fun k => filter (fun r => key_eqb (key r) k) rows)
      (distinct (map key rows)).
End GroupBy.

(** [candidates c JOIN scores s ON c.id = s.candidate_id] *)
Definition inner_join (cs : list candidate_row) (ss : list score_row)
  : list (candidate_row * score_row) :=
  flat_map
    (fun c =>
       map (fun s => (c, s))
           (filter (fun s => String.eqb (cand_id c) (score_candidate_id s)) ss))
    cs.

(** [ORDER BY a, b] on a nullable TEXT column and a TEXT column: by [a],
    and by [b] among the rows that agree on [a]. *)
Definition by_two_columns (a1 : option string) (b1 : string)
  (a2 : option string) (b2 : string) : bool :=
  if text_leb a1 a2
  then if text_leb a2 a1 then String.leb b1 b2 else true
  else false.

(** [AVG(x)]: NULL when the group has no non-NULL [x]. *)
Definition avg (xs : list (option Q)) : option Q :=
  match flat_map (fun x => match x with Some q => [q] | None => [] end) xs with
  | [] => None
  | qs => Some (sum qs / len qs)%Q
  end.

End Sqlite.

(** ** [src/data.py] *)

Module Data.
Import Py Sqlite.

(** [get_conn]: [sqlite3.connect] and a row factory; no PRAGMA is run. *)
Definition get_conn : connection := connect.

Definition create_session (uuid4 : string) (name interviewer date notes : option string)
  (db : database) : result (string * database) :=
  let sid := uuid4 in
  let conn := get_conn in
  db' <- insert_session conn sid name interviewer date notes db ;;
  Ok (sid, db').

Definition list_sessions (db : database) : list session_row :=
  order_by (fun x y => text_leb (sess_date y) (sess_date x)) (sessions db).

Definition add_candidate (uuid4 : string) (session_id : string)
  (name email phone position : option string) (experience_years : option Z)
  (notes : option string) (db : database) : result (string * database) :=
  let cid := uuid4 in
  let conn := get_conn in
  db' <- insert_candidate conn cid session_id name email phone position
           experience_years notes db ;;
  Ok (cid, db').

Definition list_candidates (session_id : string) (db : database)
  : list candidate_row :=
  filter (fun c => String.eqb (cand_session_id c) session_id) (candidates db).

Definition add_score (candidate_id metric : string) (value : Q) (db : database)
  : result database :=
  insert_score get_conn candidate_id metric value db.

(** A row of [SELECT metric, value]. *)
Record metric_value : Type := { metric : string; value : Q }.

Definition get_scores_for_candidate (candidate_id : string) (db : database)
  : list metric_value :=
  map (fun s => {| metric := score_metric s; value := score_value s |})
      (filter (fun s => String.eqb (score_candidate_id s) candidate_id) (scores db)).

(** A row of the aggregate query. *)
Record aggregate_row : Type := {
  agg_candidate_id : string;
  agg_name : option string;
  agg_metric : option string;
  agg_avg_value : option Q
}.

Definition group_key (r : candidate_row * option score_row)
  : string * option string :=
  (cand_id (fst r), option_map score_metric (snd r)).

Definition group_key_eqb (k1 k2 : string * option string) : bool :=
  String.eqb (fst k1) (fst k2) &&
  match snd k1, snd k2 with
  | None, None => true
  | Some m1, Some m2 => String.eqb m1 m2
  | _, _ => false
  end.

(** The output row of one group; the bare columns are read off the
    group's first row. *)
Definition aggregate (g : list (candidate_row * option score_row))
  : list aggregate_row :=
  match g with
  | [] => []
  | r :: _ =>
      [{| agg_candidate_id := cand_id (fst r);
          agg_name := cand_name (fst r);
          agg_metric := option_map score_metric (snd r);
          agg_avg_value := avg (map (fun x => option_map score_value (snd x)) g) |}]
  end.

Definition get_aggregate_scores (session_id : string) (db : database)
  : list aggregate_row :=
  let joined := left_join (candidates db) (scores db) in
  let selected :=
    filter (fun r => String.eqb (cand_session_id (fst r)) session_id) joined in
  flat_map aggregate (group_by group_key group_key_eqb selected).

Definition delete_candidate_scores (candidate_id : string) (db : database)
  : database :=
  delete_scores get_conn candidate_id db.

Definition update_candidate_notes (candidate_id : string) (notes : option string)
  (db : database) : database :=
  update_notes get_conn notes candidate_id db.

Definition get_candidate_by_id (candidate_id : string) (db : database)
  : option candidate_row :=
  find (fun c => String.eqb (cand_id c) candidate_id) (candidates db).

(** A row of [get_all_scores_for_session]. *)
Record session_score : Type := {
  ss_candidate_id : string;
  ss_name : option string;
  ss_metric : string;
  ss_value : Q
}.

Definition get_all_scores_for_session (session_id : string) (db : database)
  : list session_score :=
  let joined := inner_join (candidates db) (scores db) in
  let selected :=
    filter (fun r => String.eqb (cand_session_id (fst r)) session_id) joined in
  let ordered :=
    order_by (fun x y => by_two_columns (cand_name (fst x)) (score_metric (snd x))
                           (cand_name (fst y)) (score_metric (snd y)))
      selected in
  map (fun r => {| ss_candidate_id := cand_id (fst r); ss_name := cand_name (fst r);
                   ss_metric := score_metric (snd r); ss_value := score_value (snd r) |})
      ordered.

End Data.

(** ** [src/tab_interview.py] *)

Module TabInterview.
Import Py Sqlite Data.

Definition METRICS : list string :=
  ["Communication"; "Technical Skills"; "Projects"; "Problem Solving"; "Culture Fit"].

(** What a branch of the page puts on screen. The text formatting of
    numbers is left out: a metric widget carries the number itself. *)
Inductive widget : Type :=
| st_error (msg : string)
| st_success (msg : string)
| st_info (msg : string)
| st_metric (label : string) (v : Q).

(** [for x in xs: f(x)] over a store that may raise. *)
Fixpoint for_each {X S : Type} (f : X -> S -> result S) (xs : list X) (s : S)
  : result S :=
  match xs with
  | [] => Ok s
  | x :: xs' => s' <- f x s ;; for_each f xs' s'
  end.

(** [show_session_management], the [if submitted:] branch of the form. *)
Definition submit_create_session (uuid4 : string)
  (name interviewer session_date notes : string) (db : database)
  : result (widget * database) :=
  if String.eqb name ""
  then Ok (st_error "Please enter a session name", db)
  else
    r <- create_session uuid4 (Some name) (or_None interviewer)
           (Some session_date) (or_None notes) db ;;
    Ok (st_success ("✅ Created session: **" ++ name ++ "**"), snd r).

(** [show_candidate_evaluation], the [with col2:] block of one candidate. *)
Definition candidate_summary (scores : list metric_value) : result widget :=
  match scores with
  | [] => Ok (st_info "Not evaluated")
  | _ =>
      let score_dict := dict_comp metric value scores in
      avg_score <- match score_dict with
                   | [] => Ok 0%Q
                   | _ => div (sum (values score_dict)) (len score_dict)
                   end ;;
      Ok (st_metric "Average Score" avg_score)
  end.

(** [_score_candidate]: the form's sliders, one per metric, and what the
    two buttons do. [slider m] is the value the slider of metric [m]
    holds when the form is submitted. *)
Inductive form_event : Type := Save | Cancel | Idle.

Definition slider_vals (slider : string -> Q) : list (string * Q) :=
  fold_left (fun vals m => dict_set m (slider m) vals) METRICS [].

Definition _score_candidate (candidate_id : string) (slider : string -> Q)
  (note : string) (ev : form_event) (db : database) : result database :=
  let vals := slider_vals slider in
  match ev with
  | Cancel => Ok db
  | Idle => Ok db
  | Save =>
      let db := delete_candidate_scores candidate_id db in
      db <- for_each (fun mv => add_score candidate_id (fst mv) (snd mv)) vals db ;;
      Ok (if String.eqb note "" then db
          else update_candidate_notes candidate_id (Some note) db)
  end.

(** [show_quick_analytics]: one row per candidate that has scores. *)
Inductive cell : Type :=
| Text (s : option string)
| Number (q : Q).

(** [sum(s['value'] for s in scores) / len(scores)] *)
Definition average (scores : list metric_value) : result Q :=
  div (sum (map value scores)) (len scores).

Definition analytics_row (cand : candidate_row) (scores : list metric_value)
  : result (list (string * cell)) :=
  let row := [("Candidate", Text (cand_name cand))] in
  let row := fold_left (fun row s => dict_set (metric s) (Number (value s)) row)
               scores row in
  a <- average scores ;;
  Ok (dict_set "Average" (Number a) row).

Definition all_data (session_id : string) (db : database)
  : result (list (list (string * cell))) :=
  for_each
    (fun cand all_data =>
       match get_scores_for_candidate (cand_id cand) db with
       | [] => Ok all_data
       | scores => row <- analytics_row cand scores ;; Ok (all_data ++ [row])
       end)
    (list_candidates session_id db) [].

(** pandas [nlargest(n, column)] with the default [keep='first']: the first
    [n] rows in descending order of the column, rows that tie in frame
    order. *)
Definition nlargest {A : Type} (n : nat) (column : A -> Q) (df : list A) : list A :=
  firstn n (order_by (fun x y => Qle_bool (column y) (column x)) df).

(** A numeric column of a frame of dict rows. *)
Definition number_at (column : string) (row : list (string * cell)) : Q :=
  match dict_get column row with
  | Some (Number q) => q
  | _ => 0
  end.

Definition top_avg (df : list (list (string * cell)))
  : list (option cell * option cell) :=
  map (fun row => (dict_get "Candidate" row, dict_get "Average" row))
      (nlargest 3 (number_at "Average") df).

(** The label of a session in the select boxes,
    [f"{s['name']} ({s.get('date', 'N/A')})"]. A session dict has every
    column of the table as a key, so [get] finds [date] and a missing date
    prints as [None]. *)
Definition session_label (s : session_row) : string :=
  sess_name s ++ " (" ++
  match sess_date s with Some d => d | None => "None" end ++ ")".

Definition session_options (sessions : list session_row) : list (string * string) :=
  dict_comp session_label sess_id sessions.

(** [next((s for s in sessions if s['id'] == selected_session_id), None)] *)
Definition selected_session_data (sessions : list session_row)
  (selected_session_id : string) : option session_row :=
  find (fun s => String.eqb (sess_id s) selected_session_id) sessions.

(** [show_candidate_evaluation], the [if add:] branch of the form. [exp] is
    the integer the number input holds. *)
Definition submit_add_candidate (uuid4 session_id : string)
  (cname email phone position : string) (exp : Z) (notes : string) (db : database)
  : result (widget * database) :=
  if String.eqb cname ""
  then Ok (st_error "Please enter candidate name", db)
  else
    r <- add_candidate uuid4 session_id (Some cname) (or_None email) (or_None phone)
           (or_None position) (if Z.eqb exp 0 then None else Some exp)
           (or_None notes) db ;;
    Ok (st_success ("✅ Added candidate: **" ++ cname ++ "**"), snd r).

(** [_score_candidate]: the value a slider starts from. *)
Definition existing_dict (candidate_id : string) (db : database)
  : list (string * Q) :=
  dict_comp metric value (get_scores_for_candidate candidate_id db).

Definition default_val (existing_dict : list (string * Q)) (m : string) : Q :=
  match dict_get m existing_dict with
  | Some v => v
  | None => 5
  end.

End TabInterview.

(** ** Vocabulary of the statements *)

Module Vocabulary.
Import Py Sqlite Data TabInterview.

(** The [WHERE candidate_id = ?] test on a score row. *)
Definition owned_by (candidate_id : string) (s : score_row) : bool :=
  String.eqb (score_candidate_id s) candidate_id.

(** The [SELECT metric, value] projection of a score row. *)
Definition as_metric_value (s : score_row) : metric_value :=
  {| metric := score_metric s; value := score_value s |}.


(** The values a candidate's scores hold for one metric. *)
Definition values_for (m : string) (scores : list metric_value) : list Q :=
  map value (filter (fun mv => String.eqb (metric mv) m) scores).

(** A database with one session, one candidate of that session and one
    score of that candidate. *)
Definition one_scored_candidate : database :=
  {| sessions :=
       [{| sess_id := "s1"; sess_name := "Round 1"; sess_interviewer := None;
           sess_date := Some "2024-05-01"; sess_notes := None |}];
     candidates :=
       [{| cand_id := "c1"; cand_session_id := "s1"; cand_name := Some "Jane";
           cand_email := None; cand_phone := None; cand_position := None;
           cand_experience_years := Some 3%Z; cand_notes := None |}];
     scores :=
       [{| score_id := 1; score_candidate_id := "c1";
           score_metric := "Communication"; score_value := 8 |}];
     scores_seq := 1 |}.

(** The same store with a second candidate of the session, who has no
    score, and a second score of the first. *)
Definition scored_and_unscored : database :=
  {| sessions := sessions one_scored_candidate;
     candidates :=
       candidates one_scored_candidate ++
       [{| cand_id := "c2"; cand_session_id := "s1"; cand_name := Some "Omar";
           cand_email := None; cand_phone := None; cand_position := None;
           cand_experience_years := None; cand_notes := None |}];
     scores :=
       scores one_scored_candidate ++
       [{| score_id := 2; score_candidate_id := "c1";
           score_metric := "Technical Skills"; score_value := 6 |}];
     scores_seq := 2 |}.

(** A candidate row with other notes. *)
Definition with_notes (notes : option string) (c : candidate_row) : candidate_row :=
  {| cand_id := cand_id c; cand_session_id := cand_session_id c;
     cand_name := cand_name c; cand_email := cand_email c;
     cand_phone := cand_phone c; cand_position := cand_position c;
     cand_experience_years := cand_experience_years c; cand_notes := notes |}.

(** AUTOINCREMENT of [scores]: the ids grow along the table and none
    exceeds the counter. *)
Definition score_ids_ok (db : database) : Prop :=
  StronglySorted Z.lt (map score_id (scores db)) /\
  Forall (fun s => (score_id s <= scores_seq db)%Z) (scores db).

(** The order of [get_all_scores_for_session] on its rows. *)
Definition name_then_metric (x y : session_score) : Prop :=
  by_two_columns (ss_name x) (ss_metric x) (ss_name y) (ss_metric y) = true.

(** The cells a quick-analytics row holds besides the average. *)
Definition row_cells (cand : candidate_row) (scores : list metric_value)
  : list (string * cell) :=
  fold_left (fun row s => dict_set (metric s) (Number (value s)) row) scores
    [("Candidate", Text (cand_name cand))].

(** A candidate with at least one score row. *)
Definition scored (db : database) (cand : candidate_row) : bool :=
  match get_scores_for_candidate (cand_id cand) db with
  | [] => false
  | _ => true
  end.

(** The [Average] cell of a frame row holds the number [q]. *)
Definition has_average (row : list (string * cell)) (q : Q) : Prop :=
  dict_get "Average" row = Some (Number q).

(** The [Average] cell of a frame row holds a number equal to [q]. *)
Definition average_is (q : Q) (row : list (string * cell)) : bool :=
  match dict_get "Average" row with
  | Some (Number a) => Qeq_bool a q
  | _ => false
  end.

(** What the top-performers table shows of a frame row. *)
Definition shown (row : list (string * cell)) : option cell * option cell :=
  (dict_get "Candidate" row, dict_get "Average" row).

(** A frame row holding a candidate's name and average. *)
Definition frame_row (name : string) (a : Q) : list (string * cell) :=
  [("Candidate", Text (Some name)); ("Average", Number a)].

(** Two sessions created under one name on one day. *)
Definition twin_a : session_row :=
  {| sess_id := "u-a"; sess_name := "Round 1"; sess_interviewer := None;
     sess_date := Some "2024-05-01"; sess_notes := None |}.

Definition twin_b : session_row :=
  {| sess_id := "u-b"; sess_name := "Round 1"; sess_interviewer := Some "Lee";
     sess_date := Some "2024-05-01"; sess_notes := None |}.

(** PRIMARY KEY of [sessions] and of [candidates]: no id twice. *)
Definition primary_keys (db : database) : Prop :=
  NoDup (map sess_id (sessions db)) /\ NoDup (map cand_id (candidates db)).

End Vocabulary.

(** * Properties *)

Import Py Sqlite Data TabInterview Vocabulary.

(** ** Identifiers and membership *)

Lemma mem_In (x : string) (l : list string) : mem x l = true <-> In x l.
Proof.
  unfold mem. rewrite existsb_exists. split.
  - intros [y [Hin Heq]]. apply String.eqb_eq in Heq. now subst.
  - intros Hin. exists x. split; [assumption | apply String.eqb_refl].
Qed.

Lemma mem_fresh (x : string) (l : list string) : ~ In x l -> mem x l = false.
Proof.
  intros Hn. destruct (mem x l) eqn:E; [|reflexivity].
  apply mem_In in E. contradiction.
Qed.

(** ** Scores of one candidate *)

Lemma get_scores_unfold (c : string) (db : database) :
  get_scores_for_candidate c db = map as_metric_value (filter (owned_by c) (scores db)).
Proof. reflexivity. Qed.

Lemma filter_owned_disowned (c : string) (l : list score_row) :
  filter (owned_by c) (filter (fun s => negb (owned_by c s)) l) = [].
Proof.
  induction l as [|s l IH]; simpl; [reflexivity|].
  destruct (owned_by c s) eqn:E; simpl; [assumption|].
  now rewrite E.
Qed.

Lemma add_score_ok (c m : string) (v : Q) (db : database) :
  add_score c m v db =
  Ok {| sessions := sessions db;
        candidates := candidates db;
        scores := scores db ++
          [{| score_id := (scores_seq db + 1)%Z; score_candidate_id := c;
              score_metric := m; score_value := v |}];
        scores_seq := (scores_seq db + 1)%Z |}.
Proof. reflexivity. Qed.

Lemma get_scores_add_score (c m : string) (v : Q) (db db' : database) :
  add_score c m v db = Ok db' ->
  get_scores_for_candidate c db' =
  get_scores_for_candidate c db ++ [{| metric := m; value := v |}].
Proof.
  rewrite add_score_ok. intros H. injection H as <-.
  rewrite !get_scores_unfold. simpl.
  rewrite filter_app, map_app. simpl.
  unfold owned_by at 2. simpl. now rewrite String.eqb_refl.
Qed.

(** Adding a batch of scores to one candidate never raises and appends the
    batch, in order, to what the candidate had. *)
Lemma add_scores_appends {X : Type} (c : string) (km : X -> string) (kv : X -> Q)
  (batch : list X) :
  forall db, exists db',
    for_each (fun x => add_score c (km x) (kv x)) batch db = Ok db' /\
    get_scores_for_candidate c db' =
      get_scores_for_candidate c db ++
      map (fun x => {| metric := km x; value := kv x |}) batch /\
    candidates db' = candidates db /\
    sessions db' = sessions db.
Proof.
  induction batch as [|x batch IH]; intros db.
  - exists db. simpl. now rewrite app_nil_r.
  - cbn [for_each]. rewrite add_score_ok. cbn [bind].
    match goal with |- context [for_each _ batch ?d] => destruct (IH d) as [db' [H1 [H2 [H3 H4]]]] end.
    exists db'. split; [exact H1|]. split; [|split; assumption].
    rewrite H2.
    erewrite get_scores_add_score by apply add_score_ok.
    now rewrite <- app_assoc.
Qed.

Lemma metric_value_eta (l : list metric_value) :
  map (fun x => {| metric := metric x; value := value x |}) l = l.
Proof.
  induction l as [|[m v] l IH]; simpl; [reflexivity|]. now rewrite IH.
Qed.

Lemma get_scores_after_delete (c : string) (db : database) :
  get_scores_for_candidate c (delete_candidate_scores c db) = [].
Proof.
  rewrite get_scores_unfold. unfold delete_candidate_scores, delete_scores. simpl.
  change (fun s => negb (String.eqb (score_candidate_id s) c))
    with (fun s => negb (owned_by c s)).
  now rewrite filter_owned_disowned.
Qed.

(** C7. For every candidate [c] and every database, deleting the scores of
    [c] and then reading them gives the empty list, whatever rows [c] had. *)
Theorem delete_then_get_scores_empty (c : string) (db : database) :
  get_scores_for_candidate c (delete_candidate_scores c db) = [].
Proof. apply get_scores_after_delete. Qed.

(** C3. For every candidate [C], every database and every new list of
    (metric, value) pairs, deleting the scores of [C] and then adding the
    pairs one by one succeeds, and afterwards the scores read for [C] are
    exactly the new pairs, in the order they were added. Replacing
    [{A:3, B:7}] by [{A:9}] leaves [[{A,9}]]. *)
Theorem replace_all_scores_exact (C : string) (new : list metric_value) (db : database) :
  exists db',
    for_each (fun mv => add_score C (metric mv) (value mv)) new
      (delete_candidate_scores C db) = Ok db' /\
    get_scores_for_candidate C db' = new.
Proof.
  destruct (add_scores_appends C metric value new (delete_candidate_scores C db))
    as [db' [H1 [H2 _]]].
  exists db'. split; [exact H1|].
  rewrite H2, get_scores_after_delete, metric_value_eta. reflexivity.
Qed.

(** ** The scoring form *)

Lemma slider_vals_METRICS (slider : string -> Q) :
  slider_vals slider = map (fun m => (m, slider m)) METRICS.
Proof. reflexivity. Qed.

Lemma get_scores_update_notes (c c' : string) (notes : option string) (db : database) :
  get_scores_for_candidate c (update_candidate_notes c' notes db) =
  get_scores_for_candidate c db.
Proof. reflexivity. Qed.

(** C10. Saving the scoring form of a candidate succeeds on every database,
    and afterwards the candidate's score rows are exactly one row per metric
    of [METRICS], in that order, each holding the value of that metric's
    slider: five rows, no metric twice, none besides the five. *)
Theorem save_scores_one_row_per_metric (candidate_id : string)
  (slider : string -> Q) (note : string) (db : database) :
  exists db',
    _score_candidate candidate_id slider note Save db = Ok db' /\
    get_scores_for_candidate candidate_id db' =
      map (fun m => {| metric := m; value := slider m |}) METRICS /\
    map metric (get_scores_for_candidate candidate_id db') = METRICS /\
    length (get_scores_for_candidate candidate_id db') = 5%nat /\
    NoDup (map metric (get_scores_for_candidate candidate_id db')).
Proof.
  unfold _score_candidate. rewrite slider_vals_METRICS.
  destruct (add_scores_appends candidate_id fst snd
              (map (fun m => (m, slider m)) METRICS)
              (delete_candidate_scores candidate_id db)) as [db1 [H1 [H2 _]]].
  rewrite get_scores_after_delete, map_map in H2. cbn [fst snd app] in H2.
  rewrite H1. cbn [bind].
  eexists. split; [reflexivity|].
  assert (E : get_scores_for_candidate candidate_id
                (if String.eqb note "" then db1
                 else update_candidate_notes candidate_id (Some note) db1) =
              map (fun m => {| metric := m; value := slider m |}) METRICS).
  { destruct (String.eqb note ""); [|rewrite get_scores_update_notes]; exact H2. }
  rewrite E. split; [reflexivity|]. split; [reflexivity|]. split; [reflexivity|].
  cbn. repeat constructor; cbn; intuition discriminate.
Qed.

(** ** Identifiers are drawn, names are not checked *)

(** C1, as the code has it. [create_session] does not look at the name's
    text: for every name that is a string, the empty one included, and every
    drawn identifier that no stored session has, it succeeds, stores the
    session and returns the drawn identifier. It raises (the store's
    integrity error, NOT NULL) when the name is [None]. The empty name is
    turned down by the caller: the form of [show_session_management] shows
    an error and leaves the store as it was. *)
Theorem create_session_name_check (uuid4 name : string)
  (interviewer date notes : option string) (db : database)
  (Hfresh : ~ In uuid4 (map sess_id (sessions db))) :
  create_session uuid4 (Some name) interviewer date notes db =
    Ok (uuid4,
        {| sessions := sessions db ++
             [{| sess_id := uuid4; sess_name := name; sess_interviewer := interviewer;
                 sess_date := date; sess_notes := notes |}];
           candidates := candidates db;
           scores := scores db;
           scores_seq := scores_seq db |}) /\
  create_session uuid4 None interviewer date notes db =
    Raise (IntegrityError "NOT NULL constraint failed: sessions.name") /\
  (forall interviewer' session_date notes' : string,
     submit_create_session uuid4 "" interviewer' session_date notes' db =
       Ok (st_error "Please enter a session name", db)).
Proof.
  split; [|split; [reflexivity|intros; reflexivity]].
  unfold create_session, insert_session.
  now rewrite (mem_fresh _ _ Hfresh).
Qed.

Lemma create_session_name_check_witness :
  ~ In "u-0001" (map sess_id (sessions empty_db)) /\
  create_session "u-0001" (Some "") None None None empty_db =
    Ok ("u-0001",
        {| sessions :=
             [{| sess_id := "u-0001"; sess_name := ""; sess_interviewer := None;
                 sess_date := None; sess_notes := None |}];
           candidates := []; scores := []; scores_seq := 0 |}).
Proof.
  split; [simpl; tauto|].
  apply (create_session_name_check "u-0001" "" None None None empty_db).
  simpl; tauto.
Defined.

(** C1, as the claim has it, fails: with the empty string as the name,
    [create_session] returns an identifier and raises nothing. *)
Lemma create_session_empty_name_not_refused :
  (exists r, create_session "u-0001" (Some "") None None None empty_db = Ok r) /\
  ~ (exists e, create_session "u-0001" (Some "") None None None empty_db = Raise e).
Proof.
  split.
  - eexists. reflexivity.
  - intros [e He]. discriminate He.
Qed.

(** C9. [add_candidate] never looks the session up: for every session
    identifier, whether a stored session has it or not, and every drawn
    identifier that no stored candidate has, the insert succeeds, stores the
    candidate under that session identifier and returns the drawn
    identifier. *)
Theorem add_candidate_no_session_lookup (uuid4 session_id : string)
  (name email phone position : option string) (experience_years : option Z)
  (notes : option string) (db : database)
  (Hfresh : ~ In uuid4 (map cand_id (candidates db))) :
  add_candidate uuid4 session_id name email phone position experience_years notes db =
    Ok (uuid4,
        {| sessions := sessions db;
           candidates := candidates db ++
             [{| cand_id := uuid4; cand_session_id := session_id; cand_name := name;
                 cand_email := email; cand_phone := phone; cand_position := position;
                 cand_experience_years := experience_years; cand_notes := notes |}];
           scores := scores db;
           scores_seq := scores_seq db |}).
Proof.
  unfold add_candidate, insert_candidate.
  now rewrite (mem_fresh _ _ Hfresh).
Qed.

Lemma add_candidate_no_session_lookup_witness :
  ~ In "no-such-session" (map sess_id (sessions one_scored_candidate)) /\
  exists db',
    add_candidate "c2" "no-such-session" (Some "Omar") None None None None None
      one_scored_candidate = Ok ("c2", db') /\
    list_candidates "no-such-session" db' <> [].
Proof.
  split; [simpl; intuition discriminate|].
  eexists. split.
  - apply (add_candidate_no_session_lookup "c2" "no-such-session" (Some "Omar")
             None None None None None one_scored_candidate).
    simpl; intuition discriminate.
  - discriminate.
Defined.

(** The same insert on a connection that enforces foreign keys is refused:
    the orphan goes in because [get_conn] leaves enforcement off. *)
Lemma insert_candidate_enforced_refuses_orphan :
  insert_candidate {| foreign_keys := true |} "c2" "no-such-session" (Some "Omar")
    None None None None None one_scored_candidate =
  Raise (IntegrityError "FOREIGN KEY constraint failed").
Proof. reflexivity. Qed.

(** ** ORDER BY: a permutation, sorted, ties in scan order *)

Section OrderByFacts.
Context {A : Type} (before : A -> A -> bool).

Lemma insert_row_perm (x : A) (l : list A) :
  Permutation (insert_row before x l) (x :: l).
Proof.
  induction l as [|y l IH]; simpl; [reflexivity|].
  destruct (before x y); [reflexivity|].
  rewrite IH. apply perm_swap.
Qed.

Lemma order_by_perm (l : list A) : Permutation (order_by before l) l.
Proof.
  induction l as [|x l IH]; simpl; [reflexivity|].
  rewrite insert_row_perm. now constructor.
Qed.

(** A class of rows that tie with one another keeps its scan order. *)
Lemma insert_row_filter (p : A -> bool)
  (Hp : forall x y, p x = true -> p y = true -> before x y = true)
  (x : A) (l : list A) :
  filter p (insert_row before x l) = filter p (x :: l).
Proof.
  induction l as [|y l IH]; [reflexivity|].
  cbn [insert_row]. destruct (before x y) eqn:Hxy; [reflexivity|].
  cbn [filter] in *. rewrite IH.
  destruct (p x) eqn:Hx; [|reflexivity].
  destruct (p y) eqn:Hy; [|reflexivity].
  rewrite (Hp x y Hx Hy) in Hxy. discriminate.
Qed.

Lemma order_by_stable (p : A -> bool)
  (Hp : forall x y, p x = true -> p y = true -> before x y = true)
  (l : list A) :
  filter p (order_by before l) = filter p l.
Proof.
  induction l as [|x l IH]; [reflexivity|].
  cbn [order_by fold_right]. fold (order_by before l).
  rewrite (insert_row_filter p Hp). cbn [filter]. now rewrite IH.
Qed.

Hypothesis before_total : forall x y, before x y = true \/ before y x = true.
Hypothesis before_trans :
  forall x y z, before x y = true -> before y z = true -> before x z = true.

Let precedes (x y : A) : Prop := before x y = true.

Lemma insert_row_sorted (x : A) (l : list A) :
  StronglySorted precedes l -> StronglySorted precedes (insert_row before x l).
Proof.
  induction 1 as [|y l Hs IH Hy]; simpl.
  - repeat constructor.
  - destruct (before x y) eqn:Hxy.
    + constructor; [now constructor|].
      constructor; [exact Hxy|].
      eapply Forall_impl; [|exact Hy].
      intros z Hz. now apply (before_trans x y z).
    + constructor; [exact IH|].
      assert (Hyx : precedes y x).
      { destruct (before_total x y) as [H|H]; [congruence|exact H]. }
      rewrite Forall_forall in *. intros z Hz.
      apply (Permutation_in _ (insert_row_perm x l)) in Hz.
      destruct Hz as [<-|Hz]; [exact Hyx|now apply Hy].
Qed.

Lemma order_by_sorted (l : list A) : StronglySorted precedes (order_by before l).
Proof.
  induction l as [|x l IH]; simpl; [constructor|].
  now apply insert_row_sorted.
Qed.
End OrderByFacts.

Lemma StronglySorted_firstn {A : Type} (R : A -> A -> Prop) (n : nat) (l : list A) :
  StronglySorted R l -> StronglySorted R (firstn n l).
Proof.
  intros Hs. revert n. induction Hs as [|x l Hs IH Hx]; intros [|n]; simpl;
    try constructor.
  - apply IH.
  - rewrite Forall_forall in *. intros y Hy. apply Hx.
    rewrite <- (firstn_skipn n l). apply in_or_app. now left.
Qed.

Lemma StronglySorted_split {A : Type} (R : A -> A -> Prop) (n : nat) (l : list A) :
  StronglySorted R l ->
  forall x y, In x (firstn n l) -> In y (skipn n l) -> R x y.
Proof.
  intros Hs. revert n. induction Hs as [|z l Hs IH Hz]; intros [|n] x y Hx Hy;
    simpl in *; try contradiction.
  destruct Hx as [<-|Hx].
  - rewrite Forall_forall in Hz. apply Hz.
    rewrite <- (firstn_skipn n l). apply in_or_app. now right.
  - now apply (IH n).
Qed.

(** ** The order of a nullable TEXT column *)

Lemma string_leb_trans (a b c : string) :
  String.leb a b = true -> String.leb b c = true -> String.leb a c = true.
Proof.
  unfold String.leb.
  destruct (String.compare a b) eqn:Hab; try discriminate;
    destruct (String.compare b c) eqn:Hbc; try discriminate; intros _ _.
  - apply String.compare_eq_iff in Hbc. subst. now rewrite Hab.
  - apply String.compare_eq_iff in Hab. subst. now rewrite Hbc.
  - apply String.compare_eq_iff in Hbc. subst. now rewrite Hab.
  - apply OrderedTypeEx.String_as_OT.cmp_lt in Hab, Hbc.
    pose proof (OrderedTypeEx.String_as_OT.lt_trans _ _ _ Hab Hbc) as Hac.
    apply OrderedTypeEx.String_as_OT.cmp_lt in Hac. unfold OrderedTypeEx.String_as_OT.cmp in Hac.
    now rewrite Hac.
Qed.

Lemma text_leb_total (a b : option string) :
  text_leb a b = true \/ text_leb b a = true.
Proof.
  destruct a as [x|], b as [y|]; simpl; auto. apply String.leb_total.
Qed.

Lemma text_leb_trans (a b c : option string) :
  text_leb a b = true -> text_leb b c = true -> text_leb a c = true.
Proof.
  destruct a as [x|], b as [y|], c as [z|]; simpl; try congruence.
  apply string_leb_trans.
Qed.

(** C8. [list_sessions] returns the stored sessions, all of them and each
    as often as it is stored (a permutation of the table, so of the same
    length whatever the number of sessions), in descending order of [date]:
    every row's date is at least the date of every row after it, a missing
    date counting as smallest. *)
Theorem list_sessions_all_by_date_desc (db : database) :
  Permutation (list_sessions db) (sessions db) /\
  length (list_sessions db) = length (sessions db) /\
  StronglySorted (fun x y => text_leb (sess_date y) (sess_date x) = true)
    (list_sessions db).
Proof.
  unfold list_sessions. split; [|split].
  - apply order_by_perm.
  - apply Permutation_length, order_by_perm.
  - apply (order_by_sorted (fun x y => text_leb (sess_date y) (sess_date x))).
    + intros x y. apply text_leb_total.
    + intros x y z Hxy Hyz. exact (text_leb_trans _ _ _ Hyz Hxy).
Qed.

(** ** [nlargest] *)

Lemma Qle_bool_total (a b : Q) : Qle_bool a b = true \/ Qle_bool b a = true.
Proof.
  rewrite !Qle_bool_iff.
  destruct (Qlt_le_dec a b) as [H|H]; [left; now apply Qlt_le_weak|now right].
Qed.

Lemma Qle_bool_trans (a b c : Q) :
  Qle_bool a b = true -> Qle_bool b c = true -> Qle_bool a c = true.
Proof. rewrite !Qle_bool_iff. apply Qle_trans. Qed.

Lemma Qle_bool_tie (a b q : Q) :
  Qeq_bool a q = true -> Qeq_bool b q = true -> Qle_bool b a = true.
Proof.
  rewrite !Qeq_bool_iff, Qle_bool_iff. intros -> ->. apply Qle_refl.
Qed.

Section NLargest.
Context {A : Type} (n : nat) (column : A -> Q) (df : list A).

Let by_column_desc (x y : A) : bool := Qle_bool (column y) (column x).
Let ranked : list A := order_by by_column_desc df.

Lemma ranked_sorted :
  StronglySorted (fun x y => (column y <= column x)%Q) ranked.
Proof.
  assert (H : StronglySorted (fun x y => by_column_desc x y = true) ranked).
  { apply order_by_sorted.
    - intros x y. apply Qle_bool_total.
    - intros x y z Hxy Hyz. exact (Qle_bool_trans _ _ _ Hyz Hxy). }
  induction H as [|x l Hs IH Hx]; constructor; [exact IH|].
  eapply Forall_impl; [|exact Hx].
  intros y Hy. now apply Qle_bool_iff.
Qed.

Lemma nlargest_rest :
  Permutation (nlargest n column df ++ skipn n ranked) df.
Proof.
  unfold nlargest. fold by_column_desc ranked.
  rewrite firstn_skipn. apply order_by_perm.
Qed.

Lemma nlargest_length : length (nlargest n column df) = Nat.min n (length df).
Proof.
  unfold nlargest. rewrite length_firstn. f_equal.
  apply Permutation_length, order_by_perm.
Qed.

Lemma nlargest_sorted :
  StronglySorted (fun x y => (column y <= column x)%Q) (nlargest n column df).
Proof. apply StronglySorted_firstn, ranked_sorted. Qed.

Lemma nlargest_dominates (x y : A) :
  In x (nlargest n column df) -> In y (skipn n ranked) ->
  (column y <= column x)%Q.
Proof. apply (StronglySorted_split _ n ranked ranked_sorted). Qed.

Lemma nlargest_ties (q : Q) :
  filter (fun r => Qeq_bool (column r) q) df =
  filter (fun r => Qeq_bool (column r) q) (nlargest n column df) ++
  filter (fun r => Qeq_bool (column r) q) (skipn n ranked).
Proof.
  unfold nlargest. fold by_column_desc ranked.
  rewrite <- filter_app, firstn_skipn.
  symmetry. apply order_by_stable.
  intros x y Hx Hy. exact (Qle_bool_tie _ _ _ Hx Hy).
Qed.
End NLargest.

Lemma StronglySorted_weaken {X : Type} (R R' : X -> X -> Prop) (l : list X) :
  (forall x y, R x y -> R' x y) -> StronglySorted R l -> StronglySorted R' l.
Proof.
  intros H. induction 1 as [|x l Hs IH Hx]; constructor; [exact IH|].
  eapply Forall_impl; [|exact Hx]. intros y. apply H.
Qed.

Lemma number_at_average (row : list (string * cell)) (q : Q) :
  has_average row q -> number_at "Average" row = q.
Proof. unfold has_average, number_at. now intros ->. Qed.

Lemma average_is_number_at (l : list (list (string * cell))) (q : Q) :
  (forall row, In row l -> exists a, has_average row a) ->
  filter (average_is q) l =
  filter (fun row => Qeq_bool (number_at "Average" row) q) l.
Proof.
  intros H. apply filter_ext_in. intros row Hin.
  destruct (H row Hin) as [a Ha].
  unfold average_is. rewrite (number_at_average row a Ha).
  unfold has_average in Ha. now rewrite Ha.
Qed.

(** C5, as the code has it. The top-performers table has no parameter [n]:
    it always shows the first three. For every frame whose rows hold a
    number in [Average] (as every quick-analytics row does), the table
    shows the [Candidate] and [Average] cells of [min 3 (number of rows)]
    rows of the frame, in descending order of average, none of them below
    any row left out, and for every average [q] the rows shown with average
    [q] are the first rows of the frame with average [q], in frame order
    (ties are broken by input order). For [("Alice",9), ("Bob",9),
    ("Carol",5)] it shows all three, in that order. *)
Theorem top_avg_first_three_by_average (df : list (list (string * cell)))
  (Hnum : forall row, In row df -> exists q, has_average row q) :
  (exists top rest,
     top_avg df = map shown top /\
     Permutation (top ++ rest) df /\
     length top = Nat.min 3 (length df) /\
     StronglySorted
       (fun x y => forall qx qy, has_average x qx -> has_average y qy ->
                                 (qy <= qx)%Q) top /\
     (forall x y qx qy, In x top -> In y rest ->
        has_average x qx -> has_average y qy -> (qy <= qx)%Q) /\
     (forall q, filter (average_is q) df =
                filter (average_is q) top ++ filter (average_is q) rest)) /\
  top_avg [frame_row "Alice" 9; frame_row "Bob" 9; frame_row "Carol" 5] =
    [shown (frame_row "Alice" 9); shown (frame_row "Bob" 9);
     shown (frame_row "Carol" 5)].
Proof.
  split; [|reflexivity].
  set (column := number_at "Average").
  set (rest := skipn 3 (order_by (fun x y => Qle_bool (column y) (column x)) df)).
  exists (nlargest 3 column df), rest.
  pose proof (nlargest_rest 3 column df) as Hperm. fold rest in Hperm.
  assert (Hall : forall row, In row (nlargest 3 column df ++ rest) ->
                   exists q, has_average row q).
  { intros row Hin. apply Hnum. exact (Permutation_in _ Hperm Hin). }
  split; [reflexivity|]. split; [exact Hperm|].
  split; [apply nlargest_length|]. split; [|split].
  - eapply StronglySorted_weaken; [|apply (nlargest_sorted 3 column df)].
    intros x y Hxy qx qy Hx Hy. cbv beta in Hxy. unfold column in Hxy.
    now rewrite (number_at_average _ _ Hx), (number_at_average _ _ Hy) in Hxy.
  - intros x y qx qy Hx Hy Hqx Hqy.
    pose proof (nlargest_dominates 3 column df x y Hx Hy) as H.
    unfold column in H.
    now rewrite (number_at_average _ _ Hqx), (number_at_average _ _ Hqy) in H.
  - intros q.
    rewrite (average_is_number_at df q Hnum).
    rewrite (average_is_number_at (nlargest 3 column df) q)
      by (intros row Hin; apply Hall, in_or_app; now left).
    rewrite (average_is_number_at rest q)
      by (intros row Hin; apply Hall, in_or_app; now right).
    apply (nlargest_ties 3 column df q).
Qed.

Lemma top_avg_first_three_by_average_witness :
  let df := [frame_row "Ann" 5; frame_row "Ben" 9; frame_row "Cy" 7;
             frame_row "Di" 9] in
  (forall row, In row df -> exists q, has_average row q) /\
  top_avg df =
    [shown (frame_row "Ben" 9); shown (frame_row "Di" 9); shown (frame_row "Cy" 7)] /\
  exists top rest,
    top_avg df = map shown top /\ Permutation (top ++ rest) df /\
    length top = 3%nat.
Proof.
  intros df.
  assert (Hnum : forall row, In row df -> exists q, has_average row q).
  { intros row [<-|[<-|[<-|[<-|[]]]]]; eexists; reflexivity. }
  split; [exact Hnum|]. split; [reflexivity|].
  destruct (proj1 (top_avg_first_three_by_average df Hnum))
    as [top [rest [H1 [H2 [H3 _]]]]].
  exists top, rest. split; [exact H1|]. split; [exact H2|exact H3].
Defined.

(** C5, as the claim has it, fails: the table cannot be asked for two rows.
    For [("Alice",9), ("Bob",9), ("Carol",5)] it shows three rows, not the
    two [("Alice",9), ("Bob",9)]. *)
Lemma top_avg_shows_three_not_two :
  length (top_avg [frame_row "Alice" 9; frame_row "Bob" 9; frame_row "Carol" 5])
    = 3%nat /\
  top_avg [frame_row "Alice" 9; frame_row "Bob" 9; frame_row "Carol" 5] <>
    [shown (frame_row "Alice" 9); shown (frame_row "Bob" 9)].
Proof. split; [reflexivity|discriminate]. Qed.

(** ** Averages on the page *)

Lemma div_by_len {X : Type} (a : Q) (l : list X) :
  l <> [] -> div a (len l) = Ok (a / len l)%Q.
Proof.
  intros Hne. unfold div.
  destruct (Qeq_bool (len l) 0) eqn:E; [|reflexivity].
  apply Qeq_bool_iff in E. destruct l as [|x l]; [contradiction|].
  unfold len, Qeq in E. cbn [length Qnum Qden inject_Z] in E. lia.
Qed.

Lemma dict_set_keys_fresh {V : Type} (k : string) (v : V) (d : list (string * V)) :
  ~ In k (keys d) -> dict_set k v d = d ++ [(k, v)].
Proof.
  induction d as [|[k' v'] d IH]; simpl; intros Hn; [reflexivity|].
  destruct (String.eqb k' k) eqn:E.
  - apply String.eqb_eq in E. tauto.
  - rewrite IH; [reflexivity|tauto].
Qed.

Lemma dict_set_nonempty {V : Type} (k : string) (v : V) (d : list (string * V)) :
  dict_set k v d <> [].
Proof. destruct d as [|[k' v'] d]; simpl; [|destruct (String.eqb k' k)]; discriminate. Qed.

Lemma dict_fold_nonempty {X V : Type} (key : X -> string) (val : X -> V)
  (xs : list X) :
  forall d, (d <> [] \/ xs <> []) ->
    fold_left (fun d x => dict_set (key x) (val x) d) xs d <> [].
Proof.
  induction xs as [|x xs IH]; intros d H; simpl.
  - destruct H as [H|H]; [exact H|contradiction].
  - apply IH. left. apply dict_set_nonempty.
Qed.

(** With pairwise distinct keys a dict comprehension lists the items as
    they come. *)
Lemma dict_fold_distinct {X V : Type} (key : X -> string) (val : X -> V)
  (xs : list X) :
  forall d, NoDup (keys d ++ map key xs) ->
    fold_left (fun d x => dict_set (key x) (val x) d) xs d =
    d ++ map (fun x => (key x, val x)) xs.
Proof.
  induction xs as [|x xs IH]; intros d Hnd; simpl.
  - now rewrite app_nil_r.
  - simpl in Hnd. pose proof (NoDup_remove_2 _ _ _ Hnd) as Hx.
    rewrite dict_set_keys_fresh by (intros Hin; apply Hx, in_or_app; now left).
    rewrite IH.
    + now rewrite <- app_assoc.
    + unfold keys in *. rewrite map_app, <- app_assoc. exact Hnd.
Qed.

Lemma dict_comp_distinct {X V : Type} (key : X -> string) (val : X -> V)
  (xs : list X) :
  NoDup (map key xs) -> dict_comp key val xs = map (fun x => (key x, val x)) xs.
Proof. intros Hnd. unfold dict_comp. now rewrite dict_fold_distinct. Qed.

Lemma candidate_summary_scored (scores : list metric_value) :
  scores <> [] ->
  candidate_summary scores =
    Ok (st_metric "Average Score"
          (sum (values (dict_comp metric value scores)) /
           len (dict_comp metric value scores))%Q).
Proof.
  intros Hne. unfold candidate_summary.
  destruct scores as [|s scores]; [contradiction|].
  assert (Hd : dict_comp metric value (s :: scores) <> []).
  { apply dict_fold_nonempty. right. discriminate. }
  destruct (dict_comp metric value (s :: scores)) as [|kv d] eqn:E; [contradiction|].
  now rewrite div_by_len.
Qed.

(** For a candidate with scores the quick-analytics average is the
    arithmetic mean of the values of the list. *)
Lemma average_of_scored (scores : list metric_value) :
  scores <> [] -> average scores = Ok (sum (map value scores) / len scores)%Q.
Proof. intros Hne. now apply div_by_len. Qed.

(** When no metric occurs twice in the list, the evaluation tab shows the
    arithmetic mean of the list as well. *)
Lemma candidate_summary_mean_when_distinct (scores : list metric_value) :
  scores <> [] -> NoDup (map metric scores) ->
  candidate_summary scores =
    Ok (st_metric "Average Score" (sum (map value scores) / len scores)%Q).
Proof.
  intros Hne Hnd. rewrite candidate_summary_scored by assumption.
  rewrite (dict_comp_distinct _ _ _ Hnd).
  unfold values, len. now rewrite map_map, !length_map.
Qed.


(** ** GROUP BY *)


Lemma filter_all {X : Type} (p : X -> bool) (l : list X) :
  (forall x, In x l -> p x = true) -> filter p l = l.
Proof.
  induction l as [|x l IH]; simpl; intros H; [reflexivity|].
  rewrite (H x) by now left. f_equal. apply IH. intros y Hy. apply H. now right.
Qed.

Lemma filter_and {X : Type} (p q : X -> bool) (l : list X) :
  filter (fun x => p x && q x) l = filter q (filter p l).
Proof.
  induction l as [|x l IH]; simpl; [reflexivity|].
  destruct (p x); simpl; [destruct (q x)|]; now rewrite IH.
Qed.

Lemma filter_swap {X : Type} (p q : X -> bool) (l : list X) :
  filter p (filter q l) = filter q (filter p l).
Proof.
  rewrite <- !filter_and. apply filter_ext. intros x. apply andb_comm.
Qed.

Lemma filter_map_swap {X Y : Type} (f : X -> Y) (p : Y -> bool) (l : list X) :
  filter p (map f l) = map f (filter (fun x => p (f x)) l).
Proof.
  induction l as [|x l IH]; simpl; [reflexivity|].
  destruct (p (f x)); simpl; now rewrite IH.
Qed.



Section GroupByFacts.
Context {R K B : Type} (key : R -> K) (key_eqb : K -> K -> bool).
Hypothesis key_eqb_eq : forall a b, key_eqb a b = true <-> a = b.

Lemma key_eqb_refl (k : K) : key_eqb k k = true.
Proof. now apply key_eqb_eq. Qed.




(** Selecting the output rows of the groups whose key passes a test is
    grouping the input rows whose key passes it. *)
Context (agg : list R -> list B) (out_key : B -> K).
Hypothesis agg_key :
  forall g b, In b (agg g) -> exists r, In r g /\ out_key b = key r.

End GroupByFacts.

(** ** The aggregate query *)

Lemma group_key_eqb_eq (a b : string * option string) :
  group_key_eqb a b = true <-> a = b.
Proof.
  destruct a as [i om], b as [j on]. unfold group_key_eqb. cbn [fst snd].
  rewrite andb_true_iff, String.eqb_eq.
  destruct om as [m|], on as [n|]; split.
  - intros [-> H]. apply String.eqb_eq in H. now subst.
  - intros H. injection H as -> ->. split; [reflexivity|apply String.eqb_refl].
  - intros [_ H]. discriminate.
  - discriminate.
  - intros [_ H]. discriminate.
  - discriminate.
  - now intros [-> _].
  - intros H. injection H as ->. now split.
Qed.


Lemma join_candidate_fst (c : candidate_row) (ss : list score_row)
  (r : candidate_row * option score_row) :
  In r (join_candidate c ss) -> fst r = c.
Proof.
  unfold join_candidate.
  destruct (filter _ ss) as [|s l].
  - intros [<-|[]]. reflexivity.
  - intros H. apply in_map_iff in H as [x [<- _]]. reflexivity.
Qed.



Lemma join_filter_owned (cid : string) (ss : list score_row) :
  filter (fun s => String.eqb cid (score_candidate_id s)) ss = filter (owned_by cid) ss.
Proof. apply filter_ext. intros s. apply String.eqb_sym. Qed.

Lemma values_for_scores (m cid : string) (db : database) :
  values_for m (get_scores_for_candidate cid db) =
  map score_value
    (filter (fun s => String.eqb (score_metric s) m) (filter (owned_by cid) (scores db))).
Proof.
  unfold values_for. rewrite get_scores_unfold, filter_map_swap, map_map. reflexivity.
Qed.




(** Every row of the aggregate belongs to a candidate of the session. *)
Lemma aggregate_rows_of_session (session_id : string) (db : database)
  (a : aggregate_row) :
  In a (get_aggregate_scores session_id db) ->
  exists c, In c (candidates db) /\ cand_session_id c = session_id /\
            agg_candidate_id a = cand_id c /\ agg_name a = cand_name c.
Proof.
  unfold get_aggregate_scores, group_by. intros Ha.
  apply in_flat_map in Ha as [g [Hg Ha]].
  apply in_map_iff in Hg as [k [<- _]].
  destruct (filter _ _) as [|r g] eqn:E; [contradiction|].
  destruct Ha as [<-|[]].
  assert (Hr : In r (r :: g)) by now left.
  rewrite <- E in Hr. apply filter_In in Hr as [Hr _].
  apply filter_In in Hr as [Hr Hsess]. apply String.eqb_eq in Hsess.
  apply in_flat_map in Hr as [c [Hc Hr]].
  apply join_candidate_fst in Hr. subst c.
  exists (fst r). repeat split; assumption.
Qed.


(** The scenario of the store with a scored and an unscored candidate: one
    row per metric of the first, one row of NULLs for the second. *)
Example aggregate_scored_and_unscored :
  get_aggregate_scores "s1" scored_and_unscored =
  [{| agg_candidate_id := "c1"; agg_name := Some "Jane";
      agg_metric := Some "Communication"; agg_avg_value := Some (8 # 1) |};
   {| agg_candidate_id := "c1"; agg_name := Some "Jane";
      agg_metric := Some "Technical Skills"; agg_avg_value := Some (6 # 1) |};
   {| agg_candidate_id := "c2"; agg_name := Some "Omar";
      agg_metric := None; agg_avg_value := None |}].
Proof. reflexivity. Qed.

(** The quick-analytics rows of the same store leave the unscored candidate
    out. *)
Example all_data_scored_and_unscored :
  all_data "s1" scored_and_unscored =
  Ok [[("Candidate", Text (Some "Jane")); ("Communication", Number 8);
       ("Technical Skills", Number 6); ("Average", Number (14 # 2))]].
Proof. reflexivity. Qed.

(** ** The primary keys hold in every store the operations build *)

Lemma NoDup_snoc {X : Type} (x : X) (l : list X) :
  NoDup l -> ~ In x l -> NoDup (l ++ [x]).
Proof.
  induction l as [|y l IH]; simpl; intros Hnd Hx.
  - constructor; [tauto|constructor].
  - inversion Hnd as [|z l' Hy Hnd']; subst. constructor.
    + rewrite in_app_iff. simpl. intros [H|[H|[]]]; [tauto|].
      subst. apply Hx. now left.
    + apply IH; [assumption|]. intros H. apply Hx. now right.
Qed.

Lemma primary_keys_empty : primary_keys empty_db.
Proof. split; constructor. Qed.

Lemma create_session_primary_keys (uuid4 : string)
  (name interviewer date notes : option string) (db : database)
  (r : string * database) :
  primary_keys db ->
  create_session uuid4 name interviewer date notes db = Ok r ->
  primary_keys (snd r).
Proof.
  intros [Hs Hc]. unfold create_session, insert_session.
  destruct name as [n|]; [|discriminate].
  destruct (mem uuid4 (map sess_id (sessions db))) eqn:E; [discriminate|].
  cbn [bind]. intros H. injection H as <-. split; cbn [snd sessions candidates].
  - rewrite map_app. cbn [map sess_id]. apply NoDup_snoc; [exact Hs|].
    intros Hin. apply mem_In in Hin. congruence.
  - exact Hc.
Qed.

Lemma add_candidate_primary_keys (uuid4 session_id : string)
  (name email phone position : option string) (experience_years : option Z)
  (notes : option string) (db : database) (r : string * database) :
  primary_keys db ->
  add_candidate uuid4 session_id name email phone position experience_years notes db
    = Ok r ->
  primary_keys (snd r).
Proof.
  intros [Hs Hc]. unfold add_candidate, insert_candidate.
  destruct (mem uuid4 (map cand_id (candidates db))) eqn:E; [discriminate|].
  cbn [get_conn connect foreign_keys andb bind].
  intros H. injection H as <-. split; cbn [snd sessions candidates].
  - exact Hs.
  - rewrite map_app. cbn [map cand_id]. apply NoDup_snoc; [exact Hc|].
    intros Hin. apply mem_In in Hin. congruence.
Qed.

Lemma add_score_primary_keys (c m : string) (v : Q) (db db' : database) :
  primary_keys db -> add_score c m v db = Ok db' -> primary_keys db'.
Proof. rewrite add_score_ok. intros H E. injection E as <-. exact H. Qed.

Lemma delete_candidate_scores_primary_keys (c : string) (db : database) :
  primary_keys db -> primary_keys (delete_candidate_scores c db).
Proof. intros H. exact H. Qed.

Lemma update_candidate_notes_primary_keys (c : string) (notes : option string)
  (db : database) :
  primary_keys db -> primary_keys (update_candidate_notes c notes db).
Proof.
  intros [Hs Hc]. split; [exact Hs|].
  unfold update_candidate_notes, update_notes. cbn [candidates].
  rewrite map_map.
  erewrite map_ext; [exact Hc|].
  intros a. cbv beta. now destruct (String.eqb (cand_id a) c).
Qed.

(** ** Worked examples *)

Example replace_A3_B7_by_A9 :
  exists db0 db1 db2,
    for_each (fun mv => add_score "C" (metric mv) (value mv))
      [{| metric := "A"; value := 3 |}; {| metric := "B"; value := 7 |}] empty_db
      = Ok db0 /\
    get_scores_for_candidate "C" db0 =
      [{| metric := "A"; value := 3 |}; {| metric := "B"; value := 7 |}] /\
    db1 = delete_candidate_scores "C" db0 /\
    add_score "C" "A" 9 db1 = Ok db2 /\
    get_scores_for_candidate "C" db2 = [{| metric := "A"; value := 9 |}].
Proof. do 3 eexists. repeat split. Qed.

Example list_sessions_newest_first :
  exists db1 db2 db3,
    create_session "u1" (Some "May") None (Some "2024-05-01") None empty_db
      = Ok ("u1", db1) /\
    create_session "u2" (Some "June") None (Some "2024-06-15") None db1
      = Ok ("u2", db2) /\
    create_session "u3" (Some "Undated") None None None db2 = Ok ("u3", db3) /\
    map sess_name (list_sessions db3) = ["June"; "May"; "Undated"].
Proof. do 3 eexists. repeat split. Qed.

Example top_avg_three_of_four :
  top_avg
    [[("Candidate", Text (Some "Ann")); ("Average", Number 5)];
     [("Candidate", Text (Some "Ben")); ("Average", Number 9)];
     [("Candidate", Text (Some "Cy")); ("Average", Number 7)];
     [("Candidate", Text (Some "Di")); ("Average", Number 9)]] =
  [(Some (Text (Some "Ben")), Some (Number 9));
   (Some (Text (Some "Di")), Some (Number 9));
   (Some (Text (Some "Cy")), Some (Number 7))].
Proof. reflexivity. Qed.

(** * More of the store *)

(** ** Looking a candidate up *)

Lemma find_snoc {X : Type} (f : X -> bool) (l : list X) (x : X) :
  find f (l ++ [x]) =
  match find f l with
  | Some y => Some y
  | None => if f x then Some x else None
  end.
Proof.
  induction l as [|y l IH]; simpl; [reflexivity|].
  destruct (f y); [reflexivity|exact IH].
Qed.

Lemma find_absent {X : Type} (f : X -> bool) (l : list X) :
  (forall x, In x l -> f x = false) -> find f l = None.
Proof.
  induction l as [|y l IH]; simpl; intros H; [reflexivity|].
  rewrite (H y) by now left. apply IH. intros x Hx. apply H. now right.
Qed.

Lemma add_candidate_inversion (uuid4 session_id : string)
  (name email phone position : option string) (experience_years : option Z)
  (notes : option string) (db : database) (cid : string) (db' : database) :
  add_candidate uuid4 session_id name email phone position experience_years notes db
    = Ok (cid, db') ->
  cid = uuid4 /\
  ~ In uuid4 (map cand_id (candidates db)) /\
  sessions db' = sessions db /\
  scores db' = scores db /\
  scores_seq db' = scores_seq db /\
  candidates db' = candidates db ++
    [{| cand_id := uuid4; cand_session_id := session_id; cand_name := name;
        cand_email := email; cand_phone := phone; cand_position := position;
        cand_experience_years := experience_years; cand_notes := notes |}].
Proof.
  unfold add_candidate, insert_candidate.
  destruct (mem uuid4 (map cand_id (candidates db))) eqn:E; [discriminate|].
  cbn [get_conn connect foreign_keys andb bind].
  intros H. injection H as <- <-. cbn [sessions candidates scores scores_seq].
  repeat split. intros Hin. apply mem_In in Hin. congruence.
Qed.

Lemma get_by_id_snoc (id : string) (db db' : database) (row : candidate_row) :
  candidates db' = candidates db ++ [row] ->
  get_candidate_by_id id db' =
  match get_candidate_by_id id db with
  | Some c => Some c
  | None => if String.eqb (cand_id row) id then Some row else None
  end.
Proof.
  unfold get_candidate_by_id. intros ->.
  exact (find_snoc (fun c => String.eqb (cand_id c) id) (candidates db) row).
Qed.

(** X1. When [add_candidate] succeeds, the identifier it returns was not
    the id of a stored candidate, [get_candidate_by_id] on it returns the
    row just inserted, with the fields as given, and the lookup of every
    other identifier answers as before. *)
Theorem add_candidate_then_get_by_id (uuid4 session_id : string)
  (name email phone position : option string) (experience_years : option Z)
  (notes : option string) (db : database) (cid : string) (db' : database)
  (Hok : add_candidate uuid4 session_id name email phone position
           experience_years notes db = Ok (cid, db')) :
  get_candidate_by_id cid db = None /\
  get_candidate_by_id cid db' =
    Some {| cand_id := cid; cand_session_id := session_id; cand_name := name;
            cand_email := email; cand_phone := phone; cand_position := position;
            cand_experience_years := experience_years; cand_notes := notes |} /\
  (forall other, other <> cid ->
     get_candidate_by_id other db' = get_candidate_by_id other db).
Proof.
  apply add_candidate_inversion in Hok as [-> [Hfresh [_ [_ [_ Hc]]]]].
  assert (Hnone : get_candidate_by_id uuid4 db = None).
  { apply find_absent. intros c Hin. apply String.eqb_neq. intros E.
    apply Hfresh. rewrite <- E. now apply in_map. }
  split; [exact Hnone|]. split.
  - rewrite (get_by_id_snoc _ _ _ _ Hc), Hnone. cbn [cand_id].
    now rewrite String.eqb_refl.
  - intros other Hne. rewrite (get_by_id_snoc _ _ _ _ Hc).
    destruct (get_candidate_by_id other db); [reflexivity|].
    cbn [cand_id]. apply String.eqb_neq in Hne.
    now rewrite String.eqb_sym, Hne.
Qed.

Lemma add_candidate_then_get_by_id_witness :
  exists db',
    add_candidate "c2" "s1" (Some "Omar") None None None None None
      one_scored_candidate = Ok ("c2", db') /\
    option_map cand_name (get_candidate_by_id "c2" db') = Some (Some "Omar") /\
    option_map cand_name (get_candidate_by_id "c1" db') = Some (Some "Jane").
Proof.
  eexists. split; [reflexivity|].
  destruct (add_candidate_then_get_by_id "c2" "s1" (Some "Omar") None None None
              None None one_scored_candidate "c2" _ eq_refl) as [_ [H1 H2]].
  split.
  - rewrite H1. reflexivity.
  - rewrite (H2 "c1") by discriminate. reflexivity.
Defined.

(** X2. [get_candidate_by_id] returns [None] exactly for the identifiers no
    stored candidate has; what it returns otherwise is a stored candidate
    with the identifier asked for. *)
Theorem get_candidate_by_id_missing_or_stored (candidate_id : string) (db : database) :
  (get_candidate_by_id candidate_id db = None <->
   ~ In candidate_id (map cand_id (candidates db))) /\
  (forall c, get_candidate_by_id candidate_id db = Some c ->
     In c (candidates db) /\ cand_id c = candidate_id).
Proof.
  unfold get_candidate_by_id. split; [split|].
  - intros Hnone Hin. apply in_map_iff in Hin as [c [<- Hc]].
    pose proof (find_none _ _ Hnone c Hc) as H. cbv beta in H.
    now rewrite String.eqb_refl in H.
  - intros Hn. apply find_absent. intros c Hc. apply String.eqb_neq.
    intros E. apply Hn. rewrite <- E. now apply in_map.
  - intros c Hc. apply find_some in Hc as [Hin E].
    apply String.eqb_eq in E. now split.
Qed.

(** ** Notes *)

Lemma update_notes_row (id : string) (notes : option string) (db : database) :
  candidates (update_candidate_notes id notes db) =
  map (fun c => if String.eqb (cand_id c) id then with_notes notes c else c)
      (candidates db).
Proof. reflexivity. Qed.

Lemma get_by_id_after_update (id other : string) (notes : option string)
  (db : database) :
  get_candidate_by_id other (update_candidate_notes id notes db) =
  option_map (fun c => if String.eqb (cand_id c) id then with_notes notes c else c)
    (get_candidate_by_id other db).
Proof.
  unfold get_candidate_by_id. rewrite update_notes_row.
  induction (candidates db) as [|c l IH]; [reflexivity|].
  cbn [map find].
  assert (E : cand_id (if String.eqb (cand_id c) id then with_notes notes c else c)
              = cand_id c) by (destruct (String.eqb (cand_id c) id); reflexivity).
  rewrite E. destruct (String.eqb (cand_id c) other); [reflexivity|exact IH].
Qed.

(** X3. After [update_candidate_notes] on a stored candidate, looking the
    candidate up returns the same row with the new notes and every other
    field as it was; the lookup of every other identifier, the sessions and
    the scores are untouched. *)
Theorem update_notes_then_get_by_id (candidate_id : string) (notes : option string)
  (db : database) (c : candidate_row)
  (Hstored : get_candidate_by_id candidate_id db = Some c) :
  get_candidate_by_id candidate_id (update_candidate_notes candidate_id notes db) =
    Some (with_notes notes c) /\
  (forall other, other <> candidate_id ->
     get_candidate_by_id other (update_candidate_notes candidate_id notes db) =
     get_candidate_by_id other db) /\
  sessions (update_candidate_notes candidate_id notes db) = sessions db /\
  scores (update_candidate_notes candidate_id notes db) = scores db.
Proof.
  split; [|split; [|split; reflexivity]].
  - rewrite get_by_id_after_update, Hstored. cbn [option_map].
    apply find_some in Hstored as [_ E]. cbv beta in E. now rewrite E.
  - intros other Hne. rewrite get_by_id_after_update.
    destruct (get_candidate_by_id other db) as [c'|] eqn:E; [|reflexivity].
    apply find_some in E as [_ E]. apply String.eqb_eq in E.
    cbn [option_map]. subst other. apply String.eqb_neq in Hne. now rewrite Hne.
Qed.

Lemma update_notes_then_get_by_id_witness :
  option_map cand_notes
    (get_candidate_by_id "c1"
       (update_candidate_notes "c1" (Some "strong") one_scored_candidate)) =
    Some (Some "strong") /\
  option_map cand_name
    (get_candidate_by_id "c1"
       (update_candidate_notes "c1" (Some "strong") one_scored_candidate)) =
    Some (Some "Jane").
Proof.
  pose proof (update_notes_then_get_by_id "c1" (Some "strong") one_scored_candidate
                _ eq_refl) as [H _].
  rewrite H. split; reflexivity.
Defined.

Lemma database_eta (db : database) :
  {| sessions := sessions db; candidates := candidates db;
     scores := scores db; scores_seq := scores_seq db |} = db.
Proof. now destruct db. Qed.

(** X4. [update_candidate_notes] on an identifier no stored candidate has
    changes nothing, and of two updates of one candidate only the second is
    kept (no history). *)
Theorem update_notes_missing_and_overwrite (candidate_id : string)
  (first second : option string) (db : database) :
  (get_candidate_by_id candidate_id db = None ->
   update_candidate_notes candidate_id second db = db) /\
  update_candidate_notes candidate_id second
    (update_candidate_notes candidate_id first db) =
  update_candidate_notes candidate_id second db.
Proof.
  split.
  - intros Hnone. unfold update_candidate_notes, update_notes.
    rewrite <- (database_eta db) at 5. f_equal.
    rewrite <- (map_id (candidates db)) at 2. apply map_ext_in.
    intros c Hc. pose proof (find_none _ _ Hnone c Hc) as E. cbv beta in E.
    now rewrite E.
  - unfold update_candidate_notes, update_notes. cbn [sessions candidates scores scores_seq].
    f_equal. rewrite map_map. apply map_ext. intros c.
    destruct (String.eqb (cand_id c) candidate_id) eqn:E; cbn [cand_id]; now rewrite E.
Qed.

(** ** Candidates of a session *)

(** X5. When [add_candidate] succeeds, the candidates listed for the
    session it was given are the ones listed before followed by the new
    row, and the list of every other session is as before. *)
Theorem add_candidate_then_list (uuid4 session_id : string)
  (name email phone position : option string) (experience_years : option Z)
  (notes : option string) (db : database) (cid : string) (db' : database)
  (Hok : add_candidate uuid4 session_id name email phone position
           experience_years notes db = Ok (cid, db')) :
  list_candidates session_id db' =
    list_candidates session_id db ++
    [{| cand_id := cid; cand_session_id := session_id; cand_name := name;
        cand_email := email; cand_phone := phone; cand_position := position;
        cand_experience_years := experience_years; cand_notes := notes |}] /\
  (forall other, other <> session_id ->
     list_candidates other db' = list_candidates other db).
Proof.
  apply add_candidate_inversion in Hok as [-> [_ [_ [_ [_ Hc]]]]].
  unfold list_candidates. rewrite Hc. split.
  - rewrite filter_app. cbn [filter cand_session_id]. now rewrite String.eqb_refl.
  - intros other Hne. rewrite filter_app. cbn [filter cand_session_id].
    apply String.eqb_neq in Hne. rewrite String.eqb_sym, Hne. apply app_nil_r.
Qed.

Lemma add_candidate_then_list_witness :
  exists db',
    add_candidate "c2" "s1" (Some "Omar") None None None None None
      one_scored_candidate = Ok ("c2", db') /\
    map cand_name (list_candidates "s1" db') = [Some "Jane"; Some "Omar"] /\
    list_candidates "s2" db' = [].
Proof.
  eexists. split; [reflexivity|].
  destruct (add_candidate_then_list "c2" "s1" (Some "Omar") None None None
              None None one_scored_candidate "c2" _ eq_refl) as [H1 H2].
  split.
  - rewrite H1. reflexivity.
  - rewrite (H2 "s2") by discriminate. reflexivity.
Defined.

(** ** Creating and listing sessions *)

(** X6. When [create_session] succeeds, the identifier it returns is the
    one drawn and no session stored before had it; the name was not [None];
    [list_sessions] then holds a session with that identifier and the name,
    interviewer, date and notes given, every session it held before, and
    exactly one session more. *)
Theorem create_session_then_list (uuid4 : string)
  (name interviewer date notes : option string) (db : database)
  (sid : string) (db' : database)
  (Hok : create_session uuid4 name interviewer date notes db = Ok (sid, db')) :
  sid = uuid4 /\
  ~ In sid (map sess_id (list_sessions db)) /\
  (exists n, name = Some n /\
     In {| sess_id := sid; sess_name := n; sess_interviewer := interviewer;
           sess_date := date; sess_notes := notes |} (list_sessions db')) /\
  (forall s, In s (list_sessions db) -> In s (list_sessions db')) /\
  length (list_sessions db') = S (length (list_sessions db)).
Proof.
  unfold create_session, insert_session in Hok.
  destruct name as [n|]; [|discriminate].
  destruct (mem uuid4 (map sess_id (sessions db))) eqn:E; [discriminate|].
  cbn [bind] in Hok. injection Hok as <- <-.
  unfold list_sessions. cbn [sessions].
  set (before := fun x y : session_row => text_leb (sess_date y) (sess_date x)).
  split; [reflexivity|]. split; [|split; [|split]].
  - intros Hin. apply in_map_iff in Hin as [s [Hs Hin]].
    apply (Permutation_in _ (order_by_perm before (sessions db))) in Hin.
    assert (Hm : mem uuid4 (map sess_id (sessions db)) = true).
    { apply mem_In. rewrite <- Hs. now apply in_map. }
    congruence.
  - exists n. split; [reflexivity|].
    apply (Permutation_in _ (Permutation_sym (order_by_perm before _))).
    apply in_or_app. right. now left.
  - intros s Hs.
    apply (Permutation_in _ (order_by_perm before (sessions db))) in Hs.
    apply (Permutation_in _ (Permutation_sym (order_by_perm before _))).
    apply in_or_app. now left.
  - rewrite (Permutation_length (order_by_perm before (sessions db ++ _))).
    rewrite (Permutation_length (order_by_perm before (sessions db))).
    rewrite length_app. simpl. lia.
Qed.

Lemma create_session_then_list_witness :
  exists db',
    create_session "u-9" (Some "Round 2") None (Some "2024-06-15") None
      one_scored_candidate = Ok ("u-9", db') /\
    length (list_sessions db') = 2%nat /\
    ~ In "u-9" (map sess_id (list_sessions one_scored_candidate)).
Proof.
  eexists. split; [reflexivity|].
  destruct (create_session_then_list "u-9" (Some "Round 2") None (Some "2024-06-15")
              None one_scored_candidate "u-9" _ eq_refl) as [_ [H1 [_ [_ H2]]]].
  split; [exact H2|exact H1].
Defined.

(** ** Scores of the other candidates, and duplicates *)

Lemma owned_by_other (c other : string) (s : score_row) :
  other <> c -> owned_by other s = true -> owned_by c s = false.
Proof.
  unfold owned_by. intros Hne H. apply String.eqb_eq in H.
  apply String.eqb_neq. congruence.
Qed.

(** X7. Deleting the scores of a candidate and adding a score to a
    candidate leave the scores of every other candidate, the candidates and
    the sessions as they were. *)
Theorem scores_of_other_candidates_untouched (c other : string) (db : database)
  (Hne : other <> c) :
  get_scores_for_candidate other (delete_candidate_scores c db) =
    get_scores_for_candidate other db /\
  candidates (delete_candidate_scores c db) = candidates db /\
  sessions (delete_candidate_scores c db) = sessions db /\
  (forall m v db', add_score c m v db = Ok db' ->
     get_scores_for_candidate other db' = get_scores_for_candidate other db /\
     candidates db' = candidates db /\
     sessions db' = sessions db).
Proof.
  split; [|split; [reflexivity|split; [reflexivity|]]].
  - rewrite !get_scores_unfold. f_equal.
    unfold delete_candidate_scores, delete_scores. cbn [scores].
    rewrite filter_swap. apply filter_all.
    intros s Hs. apply filter_In in Hs as [_ Hs].
    fold (owned_by c s). now rewrite (owned_by_other c other s Hne Hs).
  - intros m v db' H. rewrite add_score_ok in H. injection H as <-.
    split; [|split; reflexivity].
    rewrite !get_scores_unfold. cbn [scores]. rewrite filter_app.
    cbn [filter]. unfold owned_by at 2. cbn [score_candidate_id].
    apply String.eqb_neq in Hne. rewrite String.eqb_sym, Hne. now rewrite app_nil_r.
Qed.

Lemma scores_of_other_candidates_untouched_witness :
  "c1" <> "c2" /\
  get_scores_for_candidate "c1" (delete_candidate_scores "c2" one_scored_candidate) =
    [{| metric := "Communication"; value := 8 |}].
Proof.
  assert (Hne : "c1" <> "c2") by discriminate.
  split; [exact Hne|].
  rewrite (proj1 (scores_of_other_candidates_untouched "c2" "c1"
                    one_scored_candidate Hne)).
  reflexivity.
Defined.

(** X8. [add_score] never raises and never replaces: whatever the candidate
    already has for the metric, afterwards the candidate's values for that
    metric are the old ones followed by the new one, and the values for
    every other metric are as before. *)
Theorem add_score_appends_even_duplicates (c m : string) (v : Q) (db : database) :
  exists db',
    add_score c m v db = Ok db' /\
    values_for m (get_scores_for_candidate c db') =
      values_for m (get_scores_for_candidate c db) ++ [v] /\
    (forall m', m' <> m ->
       values_for m' (get_scores_for_candidate c db') =
       values_for m' (get_scores_for_candidate c db)).
Proof.
  eexists. split; [apply add_score_ok|].
  rewrite (get_scores_add_score c m v db _ (add_score_ok c m v db)).
  unfold values_for. split.
  - rewrite filter_app, map_app. cbn [filter metric]. now rewrite String.eqb_refl.
  - intros m' Hne. rewrite filter_app, map_app. cbn [filter metric].
    apply String.eqb_neq in Hne. rewrite String.eqb_sym, Hne. apply app_nil_r.
Qed.

(** ** AUTOINCREMENT *)

Lemma StronglySorted_snoc {X : Type} (R : X -> X -> Prop) (l : list X) (x : X) :
  StronglySorted R l -> Forall (fun y => R y x) l -> StronglySorted R (l ++ [x]).
Proof.
  induction 1 as [|y l Hs IH Hy]; intros Hx; simpl.
  - repeat constructor.
  - inversion Hx as [|? ? Hyx Hx']; subst. constructor; [now apply IH|].
    apply Forall_app. split; [exact Hy|]. now constructor.
Qed.

Lemma StronglySorted_map_filter {X Y : Type} (R : Y -> Y -> Prop) (f : X -> Y)
  (p : X -> bool) (l : list X) :
  StronglySorted R (map f l) -> StronglySorted R (map f (filter p l)).
Proof.
  induction l as [|x l IH]; simpl; intros Hs; [constructor|].
  inversion Hs as [|? ? Hs' Hx]; subst.
  destruct (p x); [|now apply IH].
  simpl. constructor; [now apply IH|].
  rewrite Forall_forall in *. intros y Hy. apply Hx.
  apply in_map_iff in Hy as [z [<- Hz]]. apply in_map.
  now apply filter_In in Hz as [Hz _].
Qed.

Lemma increasing_NoDup (l : list Z) : StronglySorted Z.lt l -> NoDup l.
Proof.
  induction 1 as [|x l Hs IH Hx]; constructor; [|exact IH].
  intros Hin. rewrite Forall_forall in Hx. specialize (Hx x Hin). lia.
Qed.

(** X9. In a store whose score ids grow along the table and stay at or
    below the counter, no two score rows share an id; deleting a
    candidate's scores and adding a score keep the store that way; and a
    score added after a delete gets an id above every id the table held
    before the delete, so no id is handed out twice. *)
Theorem score_ids_never_reused (db : database) (Hids : score_ids_ok db) :
  NoDup (map score_id (scores db)) /\
  (forall c, score_ids_ok (delete_candidate_scores c db)) /\
  (forall c m v db', add_score c m v db = Ok db' -> score_ids_ok db') /\
  (forall c c' m v db',
     add_score c' m v (delete_candidate_scores c db) = Ok db' ->
     exists new,
       scores db' = scores (delete_candidate_scores c db) ++ [new] /\
       Forall (fun s => (score_id s < score_id new)%Z) (scores db)).
Proof.
  destruct Hids as [Hsorted Hbound].
  split; [now apply increasing_NoDup|]. split; [|split].
  - intros c. split; cbn [delete_candidate_scores delete_scores scores scores_seq].
    + now apply StronglySorted_map_filter.
    + rewrite Forall_forall in *. intros s Hs. apply Hbound.
      now apply filter_In in Hs as [Hs _].
  - intros c m v db' H. rewrite add_score_ok in H. injection H as <-.
    split; cbn [scores scores_seq].
    + rewrite map_app. cbn [map score_id]. apply StronglySorted_snoc; [exact Hsorted|].
      rewrite Forall_forall in *. intros y Hy.
      apply in_map_iff in Hy as [s [<- Hs]]. specialize (Hbound s Hs). lia.
    + apply Forall_app. split.
      * eapply Forall_impl; [|exact Hbound]. cbv beta. intros s Hs. lia.
      * constructor; [cbn [score_id]; lia|constructor].
  - intros c c' m v db' H. rewrite add_score_ok in H. injection H as <-.
    eexists. split; [reflexivity|].
    cbn [score_id delete_candidate_scores delete_scores scores_seq].
    eapply Forall_impl; [|exact Hbound]. cbv beta. intros s Hs. lia.
Qed.

Lemma score_ids_never_reused_witness :
  score_ids_ok one_scored_candidate /\
  exists db',
    add_score "c1" "Projects" 7 (delete_candidate_scores "c1" one_scored_candidate)
      = Ok db' /\
    map score_id (scores db') = [2%Z].
Proof.
  assert (H : score_ids_ok one_scored_candidate).
  { split.
    - repeat constructor.
    - repeat constructor. cbn. lia. }
  split; [exact H|].
  destruct (score_ids_never_reused one_scored_candidate H) as [_ [_ [_ Hnew]]].
  eexists. split; [reflexivity|].
  destruct (Hnew "c1" "c1" "Projects" 7%Q _ eq_refl) as [new [E _]].
  reflexivity.
Defined.

(** ** All scores of a session *)

Lemma by_two_columns_total (a1 : option string) (b1 : string)
  (a2 : option string) (b2 : string) :
  by_two_columns a1 b1 a2 b2 = true \/ by_two_columns a2 b2 a1 b1 = true.
Proof.
  unfold by_two_columns.
  destruct (text_leb_total a1 a2) as [H|H]; rewrite H;
    destruct (text_leb a2 a1) eqn:E, (text_leb a1 a2) eqn:E'; auto;
    try discriminate; apply String.leb_total.
Qed.

Lemma by_two_columns_trans (a1 : option string) (b1 : string)
  (a2 : option string) (b2 : string) (a3 : option string) (b3 : string) :
  by_two_columns a1 b1 a2 b2 = true -> by_two_columns a2 b2 a3 b3 = true ->
  by_two_columns a1 b1 a3 b3 = true.
Proof.
  unfold by_two_columns.
  pose proof (text_leb_trans a1 a2 a3) as T123.
  pose proof (text_leb_trans a3 a1 a2) as T312.
  pose proof (text_leb_trans a2 a3 a1) as T231.
  pose proof (string_leb_trans b1 b2 b3) as Tb.
  destruct (text_leb a1 a2), (text_leb a2 a1), (text_leb a2 a3), (text_leb a3 a2),
    (text_leb a1 a3), (text_leb a3 a1); intros H1 H2;
    try discriminate; try reflexivity; intuition congruence.
Qed.

Lemma StronglySorted_map {X Y : Type} (R : Y -> Y -> Prop) (f : X -> Y) (l : list X) :
  StronglySorted (fun x y => R (f x) (f y)) l -> StronglySorted R (map f l).
Proof.
  induction 1 as [|x l Hs IH Hx]; simpl; constructor; [exact IH|].
  rewrite Forall_forall in *. intros y Hy.
  apply in_map_iff in Hy as [z [<- Hz]]. now apply Hx.
Qed.

Lemma inner_join_In (cs : list candidate_row) (ss : list score_row)
  (c : candidate_row) (s : score_row) :
  In (c, s) (inner_join cs ss) <->
  In c cs /\ In s ss /\ score_candidate_id s = cand_id c.
Proof.
  unfold inner_join. rewrite in_flat_map. split.
  - intros [c' [Hc Hin]]. apply in_map_iff in Hin as [s' [E Hs]].
    injection E as -> ->. apply filter_In in Hs as [Hs E].
    apply String.eqb_eq in E. auto.
  - intros [Hc [Hs E]]. exists c. split; [exact Hc|].
    apply in_map. apply filter_In. split; [exact Hs|].
    apply String.eqb_eq. auto.
Qed.

(** X10. [get_all_scores_for_session] returns one row for every pair of a
    candidate of the session and a score row of that candidate, and nothing
    else; the rows come by candidate name, and by metric among rows of one
    name, a missing name first. A candidate without scores has no row
    here. *)
Theorem all_scores_for_session_joined_and_ordered (session_id : string)
  (db : database) :
  (forall r, In r (get_all_scores_for_session session_id db) <->
     exists c s,
       In c (candidates db) /\ In s (scores db) /\
       cand_session_id c = session_id /\ score_candidate_id s = cand_id c /\
       r = {| ss_candidate_id := cand_id c; ss_name := cand_name c;
              ss_metric := score_metric s; ss_value := score_value s |}) /\
  length (get_all_scores_for_session session_id db) =
    length (filter (fun r => String.eqb (cand_session_id (fst r)) session_id)
              (inner_join (candidates db) (scores db))) /\
  StronglySorted name_then_metric (get_all_scores_for_session session_id db) /\
  (forall c, get_scores_for_candidate (cand_id c) db = [] ->
     forall r, In r (get_all_scores_for_session session_id db) ->
       ss_candidate_id r <> cand_id c).
Proof.
  unfold get_all_scores_for_session.
  set (before := fun x y : candidate_row * score_row =>
         by_two_columns (cand_name (fst x)) (score_metric (snd x))
           (cand_name (fst y)) (score_metric (snd y))).
  set (selected := filter (fun r => String.eqb (cand_session_id (fst r)) session_id)
                     (inner_join (candidates db) (scores db))).
  assert (Hmem : forall r,
            In r (map (fun r => {| ss_candidate_id := cand_id (fst r);
                                   ss_name := cand_name (fst r);
                                   ss_metric := score_metric (snd r);
                                   ss_value := score_value (snd r) |})
                    (order_by before selected)) <->
            exists c s,
              In c (candidates db) /\ In s (scores db) /\
              cand_session_id c = session_id /\ score_candidate_id s = cand_id c /\
              r = {| ss_candidate_id := cand_id c; ss_name := cand_name c;
                     ss_metric := score_metric s; ss_value := score_value s |}).
  { intros r. rewrite in_map_iff. split.
    - intros [[c s] [<- Hin]].
      apply (Permutation_in _ (order_by_perm before selected)) in Hin.
      apply filter_In in Hin as [Hin Hsess]. apply String.eqb_eq in Hsess.
      apply inner_join_In in Hin as [Hc [Hs E]].
      exists c, s. cbn [fst snd] in *. auto.
    - intros [c [s [Hc [Hs [Hsess [E ->]]]]]]. exists (c, s). split; [reflexivity|].
      apply (Permutation_in _ (Permutation_sym (order_by_perm before selected))).
      apply filter_In. split.
      + apply inner_join_In. auto.
      + cbn [fst]. now apply String.eqb_eq. }
  split; [exact Hmem|]. split; [|split].
  - rewrite length_map. apply Permutation_length, order_by_perm.
  - apply StronglySorted_map.
    apply (order_by_sorted before).
    + intros x y. apply by_two_columns_total.
    + intros x y z. apply by_two_columns_trans.
  - intros c Hnone r Hr Hid. apply Hmem in Hr as [c' [s [_ [Hs [_ [E ->]]]]]].
    cbn [ss_candidate_id] in Hid.
    rewrite get_scores_unfold in Hnone. apply map_eq_nil in Hnone.
    assert (Hin : In s (filter (owned_by (cand_id c)) (scores db))).
    { apply filter_In. split; [exact Hs|]. apply String.eqb_eq. congruence. }
    rewrite Hnone in Hin. contradiction.
Qed.

Example all_scores_scored_and_unscored :
  get_all_scores_for_session "s1" scored_and_unscored =
  [{| ss_candidate_id := "c1"; ss_name := Some "Jane";
      ss_metric := "Communication"; ss_value := 8 |};
   {| ss_candidate_id := "c1"; ss_name := Some "Jane";
      ss_metric := "Technical Skills"; ss_value := 6 |}].
Proof. reflexivity. Qed.

(** * More of the pages *)

(** ** Dict lookups *)

Lemma dict_get_set {V : Type} (k k' : string) (v : V) (d : list (string * V)) :
  dict_get k (dict_set k' v d) = if String.eqb k' k then Some v else dict_get k d.
Proof.
  induction d as [|[k0 v0] d IH]; [reflexivity|].
  cbn [dict_set]. destruct (String.eqb k0 k') eqn:E0.
  - apply String.eqb_eq in E0. subst k0. cbn [dict_get].
    now destruct (String.eqb k' k).
  - cbn [dict_get]. rewrite IH.
    destruct (String.eqb k0 k) eqn:E1; [|reflexivity].
    apply String.eqb_eq in E1. subst k0. now rewrite String.eqb_sym, E0.
Qed.

Lemma find_app_or {X : Type} (f : X -> bool) (l1 l2 : list X) :
  find f (l1 ++ l2) =
  match find f l1 with
  | Some y => Some y
  | None => find f l2
  end.
Proof.
  induction l1 as [|y l1 IH]; simpl; [reflexivity|].
  destruct (f y); [reflexivity|exact IH].
Qed.

(** A dict comprehension maps a key to the value of the last item that
    carries the key. *)
Lemma dict_get_fold {X V : Type} (key : X -> string) (val : X -> V) (k : string)
  (xs : list X) :
  forall d,
    dict_get k (fold_left (fun d x => dict_set (key x) (val x) d) xs d) =
    match find (fun x => String.eqb (key x) k) (rev xs) with
    | Some x => Some (val x)
    | None => dict_get k d
    end.
Proof.
  induction xs as [|x xs IH]; intros d; [reflexivity|].
  cbn [fold_left rev]. rewrite IH, find_app_or.
  destruct (find _ (rev xs)); [reflexivity|].
  cbn [find]. rewrite dict_get_set. now destruct (String.eqb (key x) k).
Qed.

Lemma dict_get_comp {X V : Type} (key : X -> string) (val : X -> V) (k : string)
  (xs : list X) :
  dict_get k (dict_comp key val xs) =
  option_map val (find (fun x => String.eqb (key x) k) (rev xs)).
Proof.
  unfold dict_comp. rewrite dict_get_fold.
  now destruct (find _ (rev xs)).
Qed.

(** ** The session select box *)

(** X11. Of the sessions that share a label (same name, same date text)
    the select box reaches only the one listed last: looking the label of a
    session up in [session_options] gives that session's id when no
    session listed after it has the same label. *)
Theorem session_options_last_label_wins (listed_before listed_after : list session_row)
  (s : session_row)
  (Hlast : forall s', In s' listed_after -> session_label s' <> session_label s) :
  dict_get (session_label s)
    (session_options (listed_before ++ s :: listed_after)) = Some (sess_id s).
Proof.
  unfold session_options. rewrite dict_get_comp.
  rewrite rev_app_distr. cbn [rev]. rewrite <- app_assoc. cbn [app].
  rewrite find_app_or, find_absent.
  - cbn [find]. now rewrite String.eqb_refl.
  - intros s' Hin. apply in_rev in Hin. apply String.eqb_neq. now apply Hlast.
Qed.

Lemma session_options_last_label_wins_witness :
  session_label twin_a = session_label twin_b /\
  sess_id twin_a <> sess_id twin_b /\
  dict_get (session_label twin_a) (session_options [twin_a; twin_b]) =
    Some (sess_id twin_b).
Proof.
  split; [reflexivity|]. split; [discriminate|].
  change (session_label twin_a) with (session_label twin_b).
  apply (session_options_last_label_wins [twin_a] [] twin_b).
  intros s' [].
Defined.

Lemma NoDup_map_injective {X Y : Type} (f : X -> Y) (l : list X) (a b : X) :
  NoDup (map f l) -> In a l -> In b l -> f a = f b -> a = b.
Proof.
  induction l as [|x l IH]; simpl; intros Hnd Ha Hb E; [contradiction|].
  inversion Hnd as [|? ? Hx Hnd']; subst.
  destruct Ha as [->|Ha], Hb as [->|Hb]; auto.
  - exfalso. apply Hx. rewrite E. now apply in_map.
  - exfalso. apply Hx. rewrite <- E. now apply in_map.
Qed.

(** X12. Under the primary key of [sessions], whatever label is picked in
    the select box, the session found for the id behind the label exists,
    is a listed session, has that id and shows that label: the details
    panel is never empty and never of a session with another label. *)
Theorem selected_session_is_found (sessions : list session_row) (label id : string)
  (Hpk : NoDup (map sess_id sessions))
  (Hpicked : dict_get label (session_options sessions) = Some id) :
  exists s,
    selected_session_data sessions id = Some s /\
    In s sessions /\ sess_id s = id /\ session_label s = label.
Proof.
  unfold session_options in Hpicked. rewrite dict_get_comp in Hpicked.
  destruct (find _ (rev sessions)) as [x|] eqn:Ex; [|discriminate].
  cbn [option_map] in Hpicked. injection Hpicked as <-.
  apply find_some in Ex as [Hx Elabel].
  apply in_rev in Hx. apply String.eqb_eq in Elabel.
  unfold selected_session_data.
  destruct (find (fun s => String.eqb (sess_id s) (sess_id x)) sessions) as [s|] eqn:Es.
  - apply find_some in Es as [Hs Eid]. apply String.eqb_eq in Eid.
    assert (s = x) by (eapply NoDup_map_injective; eauto). subst s.
    exists x. auto.
  - pose proof (find_none _ _ Es x Hx) as H. cbv beta in H.
    now rewrite String.eqb_refl in H.
Qed.

Lemma selected_session_is_found_witness :
  NoDup (map sess_id [twin_a; twin_b]) /\
  exists s,
    selected_session_data [twin_a; twin_b] "u-b" = Some s /\
    sess_interviewer s = Some "Lee".
Proof.
  assert (Hpk : NoDup (map sess_id [twin_a; twin_b])).
  { repeat constructor; simpl; intuition discriminate. }
  split; [exact Hpk|].
  destruct (selected_session_is_found [twin_a; twin_b] (session_label twin_b) "u-b"
              Hpk eq_refl) as [s [Hs _]].
  exists s. split; [exact Hs|].
  cbv in Hs. injection Hs as <-. reflexivity.
Defined.

(** ** Adding a candidate from the form *)

(** X13. The add-candidate form with an empty name shows an error and
    leaves the store as it was. With a name, and a drawn identifier no
    stored candidate has, it stores the candidate under the selected
    session and looking the identifier up returns the row: empty email,
    phone, position and notes are stored as NULL, and so is an experience
    of 0 years. *)
Theorem submit_add_candidate_normalises (uuid4 session_id : string)
  (cname email phone position : string) (exp : Z) (notes : string) (db : database)
  (Hfresh : ~ In uuid4 (map cand_id (candidates db)))
  (Hname : cname <> "") :
  submit_add_candidate uuid4 session_id "" email phone position exp notes db =
    Ok (st_error "Please enter candidate name", db) /\
  exists db',
    submit_add_candidate uuid4 session_id cname email phone position exp notes db =
      Ok (st_success ("✅ Added candidate: **" ++ cname ++ "**"), db') /\
    get_candidate_by_id uuid4 db' =
      Some {| cand_id := uuid4; cand_session_id := session_id;
              cand_name := Some cname;
              cand_email := if String.eqb email "" then None else Some email;
              cand_phone := if String.eqb phone "" then None else Some phone;
              cand_position := if String.eqb position "" then None else Some position;
              cand_experience_years := if Z.eqb exp 0 then None else Some exp;
              cand_notes := if String.eqb notes "" then None else Some notes |} /\
    sessions db' = sessions db /\ scores db' = scores db.
Proof.
  split; [reflexivity|].
  unfold submit_add_candidate.
  apply String.eqb_neq in Hname. rewrite Hname.
  unfold add_candidate, insert_candidate.
  rewrite (mem_fresh _ _ Hfresh).
  cbn [get_conn connect foreign_keys andb bind snd].
  eexists. split; [reflexivity|]. split; [|split; reflexivity].
  erewrite get_by_id_snoc by reflexivity.
  cbn [cand_id]. rewrite String.eqb_refl.
  destruct (get_candidate_by_id uuid4 db) as [c|] eqn:E; [|reflexivity].
  apply find_some in E as [Hin E]. apply String.eqb_eq in E.
  exfalso. apply Hfresh. rewrite <- E. now apply in_map.
Qed.

Lemma submit_add_candidate_normalises_witness :
  exists db',
    submit_add_candidate "c9" "s1" "Ada" "" "" "" 0 "" one_scored_candidate =
      Ok (st_success "✅ Added candidate: **Ada**", db') /\
    option_map cand_experience_years (get_candidate_by_id "c9" db') = Some None /\
    option_map cand_email (get_candidate_by_id "c9" db') = Some None.
Proof.
  assert (Hfresh : ~ In "c9" (map cand_id (candidates one_scored_candidate)))
    by (simpl; intuition discriminate).
  assert (Hname : "Ada" <> "") by discriminate.
  destruct (submit_add_candidate_normalises "c9" "s1" "Ada" "" "" "" 0 ""
              one_scored_candidate Hfresh Hname) as [_ [db' [H1 [H2 _]]]].
  exists db'. split; [exact H1|].
  rewrite H2. split; reflexivity.
Defined.

(** ** The scoring form: what a save leaves behind *)

Lemma add_scores_frame {X : Type} (c : string) (km : X -> string) (kv : X -> Q)
  (batch : list X) :
  forall db db',
    for_each (fun x => add_score c (km x) (kv x)) batch db = Ok db' ->
    forall other, other <> c ->
      get_scores_for_candidate other db' = get_scores_for_candidate other db.
Proof.
  induction batch as [|x batch IH]; intros db db' H other Hne.
  - cbn [for_each] in H. now injection H as <-.
  - cbn [for_each] in H. rewrite add_score_ok in H. cbn [bind] in H.
    rewrite (IH _ _ H other Hne).
    rewrite !get_scores_unfold. cbn [scores]. rewrite filter_app.
    cbn [filter]. unfold owned_by at 2. cbn [score_candidate_id].
    apply String.eqb_neq in Hne. rewrite String.eqb_sym, Hne. now rewrite app_nil_r.
Qed.

(** The store after a save, before the notes are written. *)
Lemma save_scores_rows (candidate_id : string) (slider : string -> Q)
  (db : database) :
  exists db1,
    for_each (fun mv => add_score candidate_id (fst mv) (snd mv))
      (slider_vals slider) (delete_candidate_scores candidate_id db) = Ok db1 /\
    get_scores_for_candidate candidate_id db1 =
      map (fun m => {| metric := m; value := slider m |}) METRICS /\
    candidates db1 = candidates db /\
    sessions db1 = sessions db /\
    (forall other, other <> candidate_id ->
       get_scores_for_candidate other db1 = get_scores_for_candidate other db).
Proof.
  rewrite slider_vals_METRICS.
  destruct (add_scores_appends candidate_id fst snd
              (map (fun m => (m, slider m)) METRICS)
              (delete_candidate_scores candidate_id db)) as [db1 [H1 [H2 [H3 H4]]]].
  exists db1. split; [exact H1|].
  rewrite get_scores_after_delete, map_map in H2. cbn [fst snd app] in H2.
  split; [exact H2|]. split; [exact H3|]. split; [exact H4|].
  intros other Hne. rewrite (add_scores_frame _ _ _ _ _ _ H1 other Hne).
  rewrite !get_scores_unfold. f_equal.
  unfold delete_candidate_scores, delete_scores. cbn [scores].
  rewrite filter_swap. apply filter_all.
  intros s Hs. apply filter_In in Hs as [_ Hs].
  fold (owned_by candidate_id s).
  now rewrite (owned_by_other candidate_id other s Hne Hs).
Qed.

Lemma save_scores_store (candidate_id : string) (slider : string -> Q)
  (note : string) (db : database) :
  exists db1,
    _score_candidate candidate_id slider note Save db =
      Ok (if String.eqb note "" then db1
          else update_candidate_notes candidate_id (Some note) db1) /\
    get_scores_for_candidate candidate_id db1 =
      map (fun m => {| metric := m; value := slider m |}) METRICS /\
    candidates db1 = candidates db /\
    sessions db1 = sessions db /\
    (forall other, other <> candidate_id ->
       get_scores_for_candidate other db1 = get_scores_for_candidate other db).
Proof.
  destruct (save_scores_rows candidate_id slider db) as [db1 [H1 H]].
  exists db1. split; [|exact H].
  unfold _score_candidate. rewrite H1. reflexivity.
Qed.

(** X14. The sliders of the scoring form start from what is stored: after
    a save, reopening the form of that candidate finds for every metric of
    [METRICS] the value saved for it; for a candidate without any score
    every slider starts at 5. *)
Theorem slider_defaults_round_trip (candidate_id : string) (slider : string -> Q)
  (note : string) (db : database) :
  (exists db',
     _score_candidate candidate_id slider note Save db = Ok db' /\
     forall m, In m METRICS ->
       default_val (existing_dict candidate_id db') m = slider m) /\
  (get_scores_for_candidate candidate_id db = [] ->
   forall m, default_val (existing_dict candidate_id db) m = 5).
Proof.
  split.
  - destruct (save_scores_store candidate_id slider note db) as [db1 [H1 [H2 _]]].
    eexists. split; [exact H1|].
    intros m Hm. unfold existing_dict.
    assert (E : get_scores_for_candidate candidate_id
                  (if String.eqb note "" then db1
                   else update_candidate_notes candidate_id (Some note) db1) =
                map (fun m => {| metric := m; value := slider m |}) METRICS).
    { destruct (String.eqb note ""); [|rewrite get_scores_update_notes]; exact H2. }
    rewrite E.
    cbn in Hm. destruct Hm as [<-|[<-|[<-|[<-|[<-|[]]]]]]; reflexivity.
  - intros Hnone m. unfold existing_dict. rewrite Hnone. reflexivity.
Qed.

(** X15. A save touches nothing but the scores of the candidate saved and,
    with a non-empty note, the notes of that candidate: the sessions, the
    scores of every other candidate and the other fields of every candidate
    stay; with an empty note the candidates table is unchanged, so notes
    written before are kept. *)
Theorem save_scores_leaves_the_rest (candidate_id : string) (slider : string -> Q)
  (note : string) (db : database) :
  exists db',
    _score_candidate candidate_id slider note Save db = Ok db' /\
    sessions db' = sessions db /\
    (forall other, other <> candidate_id ->
       get_scores_for_candidate other db' = get_scores_for_candidate other db) /\
    candidates db' =
      (if String.eqb note "" then candidates db
       else candidates (update_candidate_notes candidate_id (Some note) db)) /\
    (forall other,
       get_candidate_by_id other db' =
       option_map
         (fun c => if negb (String.eqb note "") && String.eqb (cand_id c) candidate_id
                   then with_notes (Some note) c else c)
         (get_candidate_by_id other db)).
Proof.
  destruct (save_scores_store candidate_id slider note db)
    as [db1 [H1 [_ [Hc [Hs Hothers]]]]].
  eexists. split; [exact H1|].
  destruct (String.eqb note "") eqn:En.
  - split; [exact Hs|]. split; [exact Hothers|]. split; [exact Hc|].
    intros other. unfold get_candidate_by_id. rewrite Hc. cbn [negb andb].
    now destruct (find _ (candidates db)).
  - split; [exact Hs|]. split.
    { intros other Hne. rewrite get_scores_update_notes. now apply Hothers. }
    split.
    { rewrite !update_notes_row. now rewrite Hc. }
    intros other. rewrite get_by_id_after_update. cbn [negb andb].
    unfold get_candidate_by_id. now rewrite Hc.
Qed.

(** X16. After a save the two pages show the same average for the
    candidate, the sum of the five slider values over five: the evaluation
    tab's metric widget and the quick-analytics [Average]. *)
Theorem averages_agree_after_save (candidate_id : string) (slider : string -> Q)
  (note : string) (db : database) :
  exists db',
    _score_candidate candidate_id slider note Save db = Ok db' /\
    let scores := get_scores_for_candidate candidate_id db' in
    let mean := (sum (map slider METRICS) / inject_Z 5)%Q in
    candidate_summary scores = Ok (st_metric "Average Score" mean) /\
    average scores = Ok mean.
Proof.
  destruct (save_scores_store candidate_id slider note db) as [db1 [H1 [H2 _]]].
  eexists. split; [exact H1|].
  assert (E : get_scores_for_candidate candidate_id
                (if String.eqb note "" then db1
                 else update_candidate_notes candidate_id (Some note) db1) =
              map (fun m => {| metric := m; value := slider m |}) METRICS).
  { destruct (String.eqb note ""); [|rewrite get_scores_update_notes]; exact H2. }
  cbv zeta. rewrite E. split; reflexivity.
Qed.

(** ** The quick-analytics rows *)

Lemma analytics_row_scored (cand : candidate_row) (scores : list metric_value) :
  scores <> [] ->
  analytics_row cand scores =
    Ok (dict_set "Average" (Number (sum (map value scores) / len scores)%Q)
          (row_cells cand scores)).
Proof.
  intros Hne. unfold analytics_row, average.
  now rewrite (div_by_len _ scores Hne).
Qed.

Lemma all_data_loop (db : database) (cands : list candidate_row) :
  forall rows0,
    for_each
      (fun cand all_data =>
         match get_scores_for_candidate (cand_id cand) db with
         | [] => Ok all_data
         | scores => row <- analytics_row cand scores ;; Ok (all_data ++ [row])
         end)
      cands rows0 =
    Ok (rows0 ++
        map (fun cand =>
               let scores := get_scores_for_candidate (cand_id cand) db in
               dict_set "Average" (Number (sum (map value scores) / len scores)%Q)
                 (row_cells cand scores))
            (filter (scored db) cands)).
Proof.
  induction cands as [|c cands IH]; intros rows0; cbn [for_each filter map].
  - now rewrite app_nil_r.
  - unfold scored at 1.
    destruct (get_scores_for_candidate (cand_id c) db) as [|s ss] eqn:E.
    + cbn [bind]. apply IH.
    + rewrite analytics_row_scored by discriminate. cbn [bind].
      rewrite IH, <- app_assoc. cbn [map app]. cbv zeta. now rewrite E.
Qed.

(** X17. The quick-analytics table never fails and has one row for each
    candidate of the session that has at least one score, in the order
    [list_candidates] gives them, and none for the others. The [Average]
    cell of a row is the arithmetic mean of that candidate's score values,
    also when one of the score rows has a metric named [Average]. *)
Theorem all_data_rows_of_scored_candidates (session_id : string) (db : database) :
  exists rows,
    all_data session_id db = Ok rows /\
    rows =
      map (fun cand =>
             let scores := get_scores_for_candidate (cand_id cand) db in
             dict_set "Average" (Number (sum (map value scores) / len scores)%Q)
               (row_cells cand scores))
          (filter (scored db) (list_candidates session_id db)) /\
    length rows = length (filter (scored db) (list_candidates session_id db)) /\
    map (number_at "Average") rows =
      map (fun cand =>
             let scores := get_scores_for_candidate (cand_id cand) db in
             (sum (map value scores) / len scores)%Q)
          (filter (scored db) (list_candidates session_id db)).
Proof.
  eexists. split; [apply (all_data_loop db _ [])|].
  cbn [app]. split; [reflexivity|]. split; [now rewrite length_map|].
  rewrite map_map. apply map_ext. intros cand. cbv zeta.
  unfold number_at. rewrite dict_get_set. now rewrite String.eqb_refl.
Qed.

(** Every row of the quick-analytics table holds a number in [Average],
    which is what the top-performers table ranks by. *)
Lemma all_data_rows_have_average (session_id : string) (db : database)
  (rows : list (list (string * cell))) :
  all_data session_id db = Ok rows ->
  forall row, In row rows -> exists q, has_average row q.
Proof.
  unfold all_data. rewrite (all_data_loop db _ []). cbn [app].
  intros H. injection H as <-. intros row Hin.
  apply in_map_iff in Hin as [cand [<- _]].
  eexists. unfold has_average. rewrite dict_get_set.
  now rewrite String.eqb_refl.
Qed.

(** ** The shape of an aggregate row *)

Lemma join_candidate_some (c : candidate_row) (ss : list score_row) (s : score_row) :
  In (c, Some s) (join_candidate c ss) ->
  In s ss /\ score_candidate_id s = cand_id c.
Proof.
  unfold join_candidate.
  destruct (filter _ ss) as [|s0 l] eqn:E.
  - intros [H|[]]. discriminate H.
  - intros H. apply in_map_iff in H as [x [Hx Hin]]. injection Hx as ->.
    rewrite <- E in Hin. apply filter_In in Hin as [Hin Hid].
    apply String.eqb_eq in Hid. auto.
Qed.

Lemma join_candidate_none (c : candidate_row) (ss : list score_row) :
  In (c, None) (join_candidate c ss) -> filter (owned_by (cand_id c)) ss = [].
Proof.
  unfold join_candidate. rewrite join_filter_owned.
  destruct (filter _ ss) as [|s0 l]; [reflexivity|].
  intros H. apply in_map_iff in H as [x [Hx _]]. discriminate Hx.
Qed.

Lemma avg_all_null (g : list (candidate_row * option score_row)) :
  (forall x, In x g -> snd x = None) ->
  avg (map (fun x => option_map score_value (snd x)) g) = None.
Proof.
  intros H. unfold avg.
  assert (E : flat_map (fun x : option Q => match x with Some q => [q] | None => [] end)
                (map (fun x => option_map score_value (snd x)) g) = []).
  { induction g as [|x g IH]; [reflexivity|].
    cbn [map flat_map]. rewrite (H x) by now left. cbn [option_map app].
    apply IH. intros y Hy. apply H. now right. }
  now rewrite E.
Qed.

(** X18. The aggregate query never zero-fills. A row it returns with a
    metric belongs to a candidate that has at least one score for that
    metric, and carries an average; a row it returns with a NULL metric
    belongs to a candidate without any score, and its average is NULL. *)
Theorem aggregate_row_shape (session_id : string) (db : database)
  (a : aggregate_row)
  (Ha : In a (get_aggregate_scores session_id db)) :
  match agg_metric a with
  | Some m =>
      values_for m (get_scores_for_candidate (agg_candidate_id a) db) <> [] /\
      agg_avg_value a <> None
  | None =>
      get_scores_for_candidate (agg_candidate_id a) db = [] /\
      agg_avg_value a = None
  end.
Proof.
  unfold get_aggregate_scores, group_by in Ha.
  apply in_flat_map in Ha as [g [Hg Ha]].
  apply in_map_iff in Hg as [k [<- _]].
  destruct (filter _ _) as [|r g] eqn:E; [contradiction|].
  destruct Ha as [<-|[]]. cbn [agg_metric agg_candidate_id agg_avg_value].
  assert (Hrows : forall x, In x (r :: g) ->
            In x (left_join (candidates db) (scores db)) /\ group_key x = k).
  { intros x Hx. rewrite <- E in Hx. apply filter_In in Hx as [Hx Hk].
    apply filter_In in Hx as [Hx _]. apply group_key_eqb_eq in Hk. auto. }
  destruct (Hrows r (or_introl eq_refl)) as [Hr Hkr].
  unfold left_join in Hr. apply in_flat_map in Hr as [c [_ Hr]].
  pose proof (join_candidate_fst _ _ _ Hr) as Hc.
  destruct r as [c0 [s|]]; cbn [fst snd option_map] in *; subst c0.
  - apply join_candidate_some in Hr as [Hs Hid]. split.
    + rewrite values_for_scores. intros Hnil. apply map_eq_nil in Hnil.
      assert (Hin : In s (filter (fun s0 => String.eqb (score_metric s0) (score_metric s))
                            (filter (owned_by (cand_id c)) (scores db)))).
      { apply filter_In. split; [|apply String.eqb_refl].
        apply filter_In. split; [exact Hs|]. now apply String.eqb_eq. }
      rewrite Hnil in Hin. contradiction.
    + unfold avg. cbn [map snd option_map flat_map app]. discriminate.
  - split.
    + rewrite get_scores_unfold. now rewrite (join_candidate_none _ _ Hr).
    + apply avg_all_null. intros x Hx.
      destruct (Hrows x Hx) as [_ Hkx]. rewrite <- Hkr in Hkx.
      unfold group_key in Hkx. cbn [fst snd option_map] in Hkx.
      injection Hkx as _ Hm. now destruct (snd x).
Qed.

Lemma aggregate_row_shape_witness :
  let omar :=
    {| agg_candidate_id := "c2"; agg_name := Some "Omar";
       agg_metric := None; agg_avg_value := None |} in
  In omar (get_aggregate_scores "s1" scored_and_unscored) /\
  get_scores_for_candidate "c2" scored_and_unscored = [].
Proof.
  intros omar.
  assert (Hin : In omar (get_aggregate_scores "s1" scored_and_unscored)).
  { right. right. left. reflexivity. }
  split; [exact Hin|].
  exact (proj1 (aggregate_row_shape "s1" scored_and_unscored omar Hin)).
Defined.
